(** * A file-system content store (content_store.go): model and properties

    The store keeps gzip-compressed objects under a root directory, keyed by
    the SHA-256 of their contents.  This development embeds the code of
    [content_store.go] over a small model of the operating-system and
    library calls it makes ([os], [path/filepath], [io], [compress/gzip],
    [crypto/sha256], [encoding/hex]) and proves the properties the
    specification states about it.

    The file system is explicit state, threaded through the code by a
    state monad; a Go result pair [(v, err)] is a pair of options or a
    [result].  The compressor, the decompressor and the digest are
    parameters of the store, with one assumption: decompressing what the
    compressor wrote gives the input back.  The lines the store prints
    for diagnosis ([fmt.Printf]) have no counterpart here. *)

From Stdlib Require Import ZArith NArith Ascii String Lia.
From Stdlib.Strings Require Import Byte.
From stdpp Require Import base option list gmap strings.

Set Warnings "-register-all".
Local Open Scope Z_scope.

(** ** Strings and bytes

    A Go [string] is a sequence of bytes; [len] and slicing count bytes.
    Rocq's [string] (a list of 8-bit [ascii]) is the same thing. *)

Abbreviation byte := Byte.byte.

(** [key[i:j]] for [i <= j <= len(key)]. *)
Definition slice (i j : nat) (s : string) : string :=
  String.substring i (j - i) s.

Definition is_sep (c : ascii) : bool := Ascii.eqb c "/"%char.

(** No separator in [s]. *)
Fixpoint nosep (s : string) : bool :=
  match s with
  | EmptyString => true
  | String c s' => negb (is_sep c) && nosep s'
  end.

(** Neither a separator nor a dot in [s], as in a hexadecimal identifier. *)
Fixpoint plain (s : string) : bool :=
  match s with
  | EmptyString => true
  | String c s' => negb (is_sep c) && negb (Ascii.eqb c "."%char) && plain s'
  end.

(** ** path/filepath (Unix) *)

Module filepath.

(** [strings.Split(s, "/")]: the maximal separator-free pieces of [s];
    never empty. *)
Fixpoint split (s : string) : list string :=
  match s with
  | EmptyString => [EmptyString]
  | String c s' =>
      if is_sep c then EmptyString :: split s'
      else match split s' with
           | [] => [String c EmptyString]
           | x :: xs => String c x :: xs
           end
  end.

(** [strings.Join(l, "/")]. *)
Fixpoint join_sep (l : list string) : string :=
  match l with
  | [] => ""
  | [x] => x
  | x :: xs => x +:+ "/" +:+ join_sep xs
  end.

Definition rooted (p : string) : bool :=
  match p with
  | String c _ => is_sep c
  | EmptyString => false
  end.

(** One element of the path, processed against the elements kept so far
    (most recent first).  This is the body of the loop of [Clean]: an empty
    element and [.] are dropped, [..] removes the last kept element when
    there is one to remove, is dropped at the root, and is kept at the
    front of a relative path. *)
Definition clean_step (root : bool) (kept : list string) (e : string)
  : list string :=
  if bool_decide (e = "" ∨ e = ".") then kept
  else if bool_decide (e = "..") then
    match kept with
    | top :: kept' => if bool_decide (top = "..") then e :: kept else kept'
    | [] => if root then [] else [e]
    end
  else e :: kept.

(** [filepath.Clean]. *)
Definition Clean (p : string) : string :=
  if bool_decide (p = "") then "."
  else
    let root := rooted p in
    match rev (fold_left (clean_step root) (split p) []) with
    | [] => if root then "/" else "."
    | l => (if root then "/" else "") +:+ join_sep l
    end.

(** [filepath.Join]: the elements from the first non-empty one on, joined
    by the separator and cleaned; the empty string when all are empty. *)
Fixpoint Join (elem : list string) : string :=
  match elem with
  | [] => ""
  | e :: rest =>
      if bool_decide (e = "") then Join rest else Clean (join_sep elem)
  end.

(** The part of [p] up to and including its last separator. *)
Fixpoint upto_last_sep (p : string) : string :=
  match p with
  | EmptyString => ""
  | String c p' =>
      if is_sep c then String c (upto_last_sep p')
      else match upto_last_sep p' with
           | EmptyString => ""
           | d => String c d
           end
  end.

(** [filepath.Dir]. *)
Definition Dir (p : string) : string := Clean (upto_last_sep p).

End filepath.

(** ** The sharding function *)

Definition transformKey (key : string) : string :=
  if (String.length key <? 5)%nat then key
  else filepath.Join [slice 0 2 key; slice 2 4 key; slice 4 (String.length key) key].

(** ** Errors

    A Go [error] value is modelled by [option error], [None] being [nil]. *)

Inductive errno :=
  | ENOENT | EEXIST | ENOTDIR | EISDIR | ENOTEMPTY | EINVAL | EBUSY | EBADF
  | ENOSPC | EIO.

Inductive error :=
  | SyscallError (e : errno)   (* an [*os.PathError] or [*os.LinkError] around [e] *)
  | os_ErrClosed
  | io_EOF
  | io_ErrUnexpectedEOF
  | gzip_ErrHeader
  | gzip_ErrChecksum
  | flate_CorruptInputError
  | ReaderError (code : nat)   (* a failure of the caller's [io.Reader] *)
  | errHashMismatch            (* "Content hash does not match OID" *)
  | errSizeMismatch.           (* "Content size does not match" *)

Global Instance errno_eq_dec : EqDecision errno.
Proof. solve_decision. Defined.
Global Instance error_eq_dec : EqDecision error.
Proof. solve_decision. Defined.

Inductive result (E A : Type) :=
  | Ok (a : A)
  | Err (e : E).
Arguments Ok {E A} a.
Arguments Err {E A} e.

(** [os.IsNotExist]. *)
Definition os_IsNotExist (err : option error) : bool :=
  match err with
  | Some (SyscallError ENOENT) => true
  | _ => false
  end.

(** ** The file system

    A tree of directories and regular files.  Permission bits are recorded
    on every node, as [mkdir] and [open] set them, but access is never
    refused: the process is taken to own the tree.  Path names are resolved
    lexically from the root of the tree, which is also the working
    directory of the process; there are no symbolic links. *)

Inductive node :=
  | File (perm : Z) (data : list byte)
  | Dir (perm : Z) (entries : gmap string node).

Record FS := mkFS {
  root : node;
  umask : Z;
  (** a failing device: when set, writing file data fails with this error *)
  wfault : option errno;
}.

Definition oct (a b c : Z) : Z := a * 64 + b * 8 + c.

(** The mode a node gets when created with [perm]. *)
Definition create_mode (fs : FS) (perm : Z) : Z :=
  Z.land (Z.land perm (oct 7 7 7)) (Z.lnot (umask fs)).

Module tree.

(** The node a resolved path names. *)
Fixpoint find (p : list string) (n : node) : result errno node :=
  match p with
  | [] => Ok n
  | c :: p' =>
      match n with
      | File _ _ => Err ENOTDIR
      | Dir _ es =>
          match es !! c with
          | None => Err ENOENT
          | Some n' => find p' n'
          end
      end
  end.

(** Rewrite the entries of the directory [d]. *)
Fixpoint modify_dir (d : list string)
    (f : gmap string node → result errno (gmap string node)) (n : node)
  : result errno node :=
  match n with
  | File _ _ => Err ENOTDIR
  | Dir m es =>
      match d with
      | [] => match f es with
              | Ok es' => Ok (Dir m es')
              | Err e => Err e
              end
      | c :: d' =>
          match es !! c with
          | None => Err ENOENT
          | Some n' =>
              match modify_dir d' f n' with
              | Ok n'' => Ok (Dir m (<[c := n'']> es))
              | Err e => Err e
              end
          end
      end
  end.

(** Make every missing directory along [p], with mode [mode]; fail on a
    regular file in the way.  Nothing is created when it fails: below a
    directory that had to be created there is nothing to collide with. *)
Fixpoint mkdir_all (mode : Z) (p : list string) (n : node)
  : result errno node :=
  match n with
  | File _ _ => Err ENOTDIR
  | Dir m es =>
      match p with
      | [] => Ok n
      | c :: p' =>
          match mkdir_all mode p' (default (Dir mode ∅) (es !! c)) with
          | Ok n' => Ok (Dir m (<[c := n']> es))
          | Err e => Err e
          end
      end
  end.

(** The tree with [es] for the entries of the directory [d] ([t] itself
    when [d] is not a directory of [t]). *)
Definition put_entries (d : list string) (es : gmap string node) (t : node)
  : node :=
  match modify_dir d (λ _, Ok es) t with
  | Ok t' => t'
  | Err _ => t
  end.

(** The tree with the entry [x] of the directory [d] set to [n]. *)
Definition link (d : list string) (x : string) (n : node) (t : node) : node :=
  match modify_dir d (λ es, Ok (<[x := n]> es)) t with
  | Ok t' => t'
  | Err _ => t
  end.

(** A resolved path as its directory and its last name; [None] for the
    root. *)
Definition unsnoc (p : list string) : option (list string * string) :=
  match rev p with
  | [] => None
  | x :: r => Some (rev r, x)
  end.

End tree.

(** Path resolution as the kernel does it: empty elements and [.] are
    skipped, [..] goes up (and stays at the root).  The empty path names
    nothing. *)
Definition walk_step (seen : list string) (e : string) : list string :=
  if bool_decide (e = "" ∨ e = ".") then seen
  else if bool_decide (e = "..") then tail seen
  else e :: seen.

(** An element that names an entry: not empty, not [.] and not [..]. *)
Definition is_name (e : string) : bool :=
  negb (bool_decide (e = "" ∨ e = ".")) && negb (bool_decide (e = "..")).

Definition resolve (path : string) : result errno (list string) :=
  if bool_decide (path = "") then Err ENOENT
  else Ok (rev (fold_left walk_step (filepath.split path) [])).

(** ** Stateful code: a state monad over the file system *)

Definition M (A : Type) : Type := FS → A * FS.

Global Instance M_ret : MRet M := λ A a fs, (a, fs).
Global Instance M_bind : MBind M := λ A B k m fs, let (a, fs') := m fs in k a fs'.

Definition get_fs : M FS := λ fs, (fs, fs).
Definition set_root (t : node) : M unit :=
  λ fs, (tt, {| root := t; umask := umask fs; wfault := wfault fs |}).

(** Go's [defer]: [d] runs when the body returns, whatever it returns. *)
Definition defer {A B} (d : M B) (body : M A) : M A :=
  a ← body; _ ← d; mret a.

(** ** package os *)

Definition O_RDONLY : Z := 0.
Definition O_WRONLY : Z := 1.
Definition O_RDWR : Z := 2.
Definition O_CREATE : Z := 64.   (* 0x40 *)
Definition O_EXCL : Z := 128.    (* 0x80 *)

Definition has_flag (flag bit : Z) : bool := negb (Z.land flag bit =? 0).
Definition for_writing (flag : Z) : bool := negb (Z.land flag 3 =? O_RDONLY).

(** An open file: where it was opened, what was there at that moment (the
    store never changes a file in place once it is at its final path, so
    this is what reading the descriptor returns), the access mode and
    whether [Close] has been called. *)
Record os_File := mkFile {
  f_path : list string;
  f_node : node;
  f_flag : Z;
  f_closed : bool;
}.

Record FileInfo := mkInfo {
  fi_IsDir : bool;
  fi_Mode : Z;
  fi_Size : Z;
}.

Definition info_of (n : node) : FileInfo :=
  match n with
  | File m data => mkInfo false m (Z.of_nat (length data))
  | Dir m _ => mkInfo true m 0
  end.

Definition sys {A} (r : result errno A) : result error A :=
  match r with
  | Ok a => Ok a
  | Err e => Err (SyscallError e)
  end.

(** [os.Stat]. *)
Definition os_Stat (path : string) : M (result error FileInfo) :=
  fs ← get_fs;
  mret (sys (match resolve path with
             | Err e => Err e
             | Ok p => match tree.find p (root fs) with
                       | Ok n => Ok (info_of n)
                       | Err e => Err e
                       end
             end)).

(** [os.MkdirAll]: the directory and all its missing parents, each created
    with [perm] less the umask; no error when it is already there. *)
Definition os_MkdirAll (path : string) (perm : Z) : M (option error) :=
  fs ← get_fs;
  match resolve path with
  | Err e => mret (Some (SyscallError e))
  | Ok p =>
      match tree.mkdir_all (create_mode fs perm) p (root fs) with
      | Err e => mret (Some (SyscallError e))
      | Ok t => _ ← set_root t; mret None
      end
  end.

(** [os.OpenFile], for the flags above. *)
Definition os_OpenFile (path : string) (flag perm : Z)
  : M (result error os_File) :=
  fs ← get_fs;
  match resolve path with
  | Err e => mret (Err (SyscallError e))
  | Ok p =>
      let opened n :=
        if has_flag flag O_CREATE && has_flag flag O_EXCL
        then Err (SyscallError EEXIST)
        else match n with
             | Dir _ _ =>
                 if for_writing flag then Err (SyscallError EISDIR)
                 else Ok (mkFile p n flag false)
             | File _ _ => Ok (mkFile p n flag false)
             end in
      match tree.unsnoc p with
      | None => mret (opened (root fs))
      | Some (d, x) =>
          match tree.find d (root fs) with
          | Err e => mret (Err (SyscallError e))
          | Ok (File _ _) => mret (Err (SyscallError ENOTDIR))
          | Ok (Dir _ es) =>
              match es !! x with
              | Some n => mret (opened n)
              | None =>
                  if has_flag flag O_CREATE then
                    let n := File (create_mode fs perm) [] in
                    match tree.modify_dir d (λ es, Ok (<[x := n]> es)) (root fs) with
                    | Err e => mret (Err (SyscallError e))
                    | Ok t => _ ← set_root t; mret (Ok (mkFile p n flag false))
                    end
                  else mret (Err (SyscallError ENOENT))
              end
          end
      end
  end.

(** [os.Open]. *)
Definition os_Open (path : string) : M (result error os_File) :=
  os_OpenFile path O_RDONLY 0.

(** The first [Write] through an [os.File]: the bytes land at offset 0.
    (The store writes each file it creates once, when it closes the
    compressor; a descriptor's offset is not tracked.) *)
Definition os_File_Write (f : os_File) (b : list byte) : M (option error) :=
  fs ← get_fs;
  if f_closed f then mret (Some os_ErrClosed)
  else if negb (for_writing (f_flag f)) then mret (Some (SyscallError EBADF))
  else match wfault fs with
  | Some e => mret (Some (SyscallError e))
  | None =>
      match tree.unsnoc (f_path f) with
      | None => mret (Some (SyscallError EISDIR))
      | Some (d, x) =>
          let store es :=
            match es !! x with
            | Some (File m data) => Ok (<[x := File m (b ++ drop (length b) data)]> es)
            | Some (Dir _ _) => Err EISDIR
            | None => Err EIO
            end in
          match tree.modify_dir d store (root fs) with
          | Err e => mret (Some (SyscallError e))
          | Ok t => _ ← set_root t; mret None
          end
      end
  end.

(** [Close] of an [os.File]. *)
Definition os_File_Close (f : os_File) : option error * os_File :=
  if f_closed f then (Some os_ErrClosed, f)
  else (None, mkFile (f_path f) (f_node f) (f_flag f) true).

(** [os.Remove]: a file or an empty directory. *)
Definition os_Remove (path : string) : M (option error) :=
  fs ← get_fs;
  match resolve path with
  | Err e => mret (Some (SyscallError e))
  | Ok p =>
      match tree.unsnoc p with
      | None => mret (Some (SyscallError EBUSY))
      | Some (d, x) =>
          let unlink es :=
            match es !! x with
            | None => Err ENOENT
            | Some (File _ _) => Ok (delete x es)
            | Some (Dir _ sub) =>
                if bool_decide (size sub = 0%nat) then Ok (delete x es)
                else Err ENOTEMPTY
            end in
          match tree.modify_dir d unlink (root fs) with
          | Err e => mret (Some (SyscallError e))
          | Ok t => _ ← set_root t; mret None
          end
      end
  end.

(** [prefix_of d p]: [p] is [d] or lies below it. *)
Fixpoint prefix_of (d p : list string) : bool :=
  match d, p with
  | [], _ => true
  | _ :: _, [] => false
  | a :: d', b :: p' => bool_decide (a = b) && prefix_of d' p'
  end.

(** [os.Rename]: the node at [oldpath] moves to [newpath], replacing what
    is there when the kinds agree (and a directory there is empty). *)
Definition os_Rename (oldpath newpath : string) : M (option error) :=
  fs ← get_fs;
  match resolve oldpath, resolve newpath with
  | Err e, _ | _, Err e => mret (Some (SyscallError e))
  | Ok po, Ok pn =>
      match tree.unsnoc po, tree.unsnoc pn with
      | None, _ | _, None => mret (Some (SyscallError EBUSY))
      | Some (do, xo), Some (dn, xn) =>
          match tree.find po (root fs) with
          | Err e => mret (Some (SyscallError e))
          | Ok n =>
              if bool_decide (po = pn) then mret None
              else if prefix_of po pn then mret (Some (SyscallError EINVAL))
              else
                let link es :=
                  match es !! xn, n with
                  | None, _ => Ok (<[xn := n]> es)
                  | Some (File _ _), File _ _ => Ok (<[xn := n]> es)
                  | Some (File _ _), Dir _ _ => Err ENOTDIR
                  | Some (Dir _ _), File _ _ => Err EISDIR
                  | Some (Dir _ sub), Dir _ _ =>
                      if bool_decide (size sub = 0%nat) then Ok (<[xn := n]> es)
                      else Err ENOTEMPTY
                  end in
                match tree.modify_dir dn link (root fs) with
                | Err e => mret (Some (SyscallError e))
                | Ok t =>
                    match tree.modify_dir do (λ es, Ok (delete xo es)) t with
                    | Err e => mret (Some (SyscallError e))
                    | Ok t' => _ ← set_root t'; mret None
                    end
                end
          end
      end
  end.

(** ** package encoding/hex *)

Definition hextable : string := "0123456789abcdef".

Definition hex_digit (n : N) : ascii :=
  default "0"%char (String.get (N.to_nat n) hextable).

(** [hex.EncodeToString]: two lower-case digits per byte, high nibble
    first. *)
Fixpoint hex_EncodeToString (src : list byte) : string :=
  match src with
  | [] => ""
  | v :: rest =>
      String (hex_digit (N.shiftr (Byte.to_N v) 4))
        (String (hex_digit (N.land (Byte.to_N v) 15))
           (hex_EncodeToString rest))
  end.

(** ** package io: the caller's reader

    An [io.Reader] handed to [Put] delivers [r_data] and then either ends
    ([io.EOF]) or fails with [r_err]. *)
Record Reader := mkReader {
  r_data : list byte;
  r_err : option error;
}.

(** ** package compress/gzip, reading side

    How a gzip member ends once its data has been delivered. *)
Inductive gz_end :=
  | GzOK                      (* well formed: reads end with [io.EOF] *)
  | GzInflateErr (e : error)  (* damaged deflate data: reads end with [e],
                                 the inflater keeps it and [Close] reports it *)
  | GzTrailerErr (e : error). (* bad checksum or length: reads end with [e] *)

Record gzip_Reader := mkZReader {
  z_rest : list byte;          (* decompressed bytes not yet read *)
  z_end : gz_end;
  z_err : option error;        (* the inflater's error, once it has one *)
}.

Definition end_error (e : gz_end) : error :=
  match e with
  | GzOK => io_EOF
  | GzInflateErr e | GzTrailerErr e => e
  end.

Definition inflater_error (e : gz_end) : option error :=
  match e with
  | GzOK => Some io_EOF
  | GzInflateErr e => Some e
  | GzTrailerErr _ => Some io_EOF
  end.

(** The reader once its data is used up. *)
Definition at_end (z : gzip_Reader) : gzip_Reader :=
  mkZReader [] (z_end z) (inflater_error (z_end z)).

(** [Read] of a [gzip.Reader] into a buffer of [n] bytes. *)
Definition gzip_Reader_Read (z : gzip_Reader) (n : nat)
  : (list byte * option error) * gzip_Reader :=
  match z_rest z with
  | [] => (([], Some (end_error (z_end z))), at_end z)
  | rest => ((take n rest, None), mkZReader (drop n rest) (z_end z) (z_err z))
  end.

(** [Close] of a [gzip.Reader]: the inflater's error unless that is
    [io.EOF].  The underlying file stays open. *)
Definition gzip_Reader_Close (z : gzip_Reader) : option error :=
  match z_err z with
  | Some e => if bool_decide (e = io_EOF) then None else Some e
  | None => None
  end.

(** [io.CopyN(ioutil.Discard, z, n)]: the count and the error, which is
    [nil] exactly when [n] bytes could be skipped; the condition the reader
    ended with otherwise ([io.EOF] for a well-formed stream). *)
Definition io_CopyN_Discard (z : gzip_Reader) (n : Z)
  : (Z * option error) * gzip_Reader :=
  if n <=? 0 then ((0, None), z)
  else if n <=? Z.of_nat (length (z_rest z))
  then ((n, None), mkZReader (drop (Z.to_nat n) (z_rest z)) (z_end z) (z_err z))
  else ((Z.of_nat (length (z_rest z)), Some (end_error (z_end z))), at_end z).

(** ** The read handle *)

Record bothCloser := mkBoth {
  f : os_File;
  g : gzip_Reader;
}.

(** Releases of the two resources, in the order they happen. *)
Inductive release := ClosedGzip | ClosedFile.

(** Code on a handle: the handle is mutable, and each release is logged. *)
Definition H (A : Type) : Type := bothCloser * list release → A * (bothCloser * list release).

Global Instance H_ret : MRet H := λ A a st, (a, st).
Global Instance H_bind : MBind H := λ A B k m st, let (a, st') := m st in k a st'.

Definition g_Close : H (option error) :=
  λ '(b, log), (gzip_Reader_Close (g b), (b, log ++ [ClosedGzip])).

Definition f_Close : H (option error) :=
  λ '(b, log),
    let (err, f') := os_File_Close (f b) in
    (err, (mkBoth f' (g b), log ++ [ClosedFile])).

Definition g_Read (n : nat) : H (list byte * option error) :=
  λ '(b, log),
    let (r, g') := gzip_Reader_Read (g b) n in
    (r, (mkBoth (f b) g', log)).

Definition bothCloser_Read (n : nat) : H (list byte * option error) :=
  g_Read n.

Definition bothCloser_Close : H (option error) :=
  err ← g_Close;
  err' ← f_Close;
  match err' with
  | Some e => mret (Some e)
  | None => mret err
  end.

(** [ioutil.ReadAll] on a handle: [Read] into a 512-byte buffer until it
    reports an error; [io.EOF] is the normal end and is not returned.
    [fuel] bounds the number of calls. *)
Fixpoint ioutil_ReadAll (fuel : nat) (acc : list byte)
  : H (result unit (list byte * option error)) :=
  match fuel with
  | O => mret (Err tt)
  | S fuel' =>
      r ← bothCloser_Read 512;
      match r with
      | (chunk, None) => ioutil_ReadAll fuel' (acc ++ chunk)
      | (chunk, Some e) =>
          mret (Ok (acc ++ chunk,
                    if bool_decide (e = io_EOF) then None else Some e))
      end
  end.

(** ** The content store *)

(** Modelled from the spec: the content descriptor.  [MetaObject] is
    declared in another file of the repository; the store reads its
    [Oid] (the identifier, a hexadecimal string) and its [Size] (the
    expected length in bytes, an [int64]). *)
Record MetaObject := mkMeta {
  Oid : string;
  Size : Z;
}.

Record ContentStore := mkStore {
  basePath : string;
}.

Definition gzip_BestCompression : Z := 9.

Section Store.

(** [compress/gzip] and [crypto/sha256] are taken as given: what a
    [gzip.Writer] of some level makes of its input, what a [gzip.Reader]
    makes of a file's bytes (the header is checked when the reader is
    made), and the digest. *)
Variable gzip_encode : Z → list byte → list byte.
Variable gzip_decode : list byte → result error (list byte * gz_end).
Variable sha256_Sum : list byte → list byte.

Hypothesis gzip_decode_encode :
  ∀ b, gzip_decode (gzip_encode gzip_BestCompression b) = Ok (b, GzOK).

(** [gzip.NewReader]. *)
Definition gzip_NewReader (file : os_File) : result error gzip_Reader :=
  if f_closed file then Err os_ErrClosed
  else match f_node file with
       | Dir _ _ => Err (SyscallError EISDIR)
       | File _ data =>
           match gzip_decode data with
           | Err e => Err e
           | Ok (b, e) => Ok (mkZReader b e None)
           end
       end.

(** A [gzip.Writer]: its input so far; the compressed form reaches the
    file when the writer is closed. *)
Record gzip_Writer := mkZWriter {
  zw_file : os_File;
  zw_level : Z;
  zw_in : list byte;
}.

(** [gzip.NewWriterLevel], whose error (for a level that does not exist)
    the store drops: [gzip.BestCompression] is a level. *)
Definition gzip_NewWriterLevel (file : os_File) (level : Z) : gzip_Writer :=
  mkZWriter file level [].

Definition gzip_Writer_Write (w : gzip_Writer) (p : list byte) : gzip_Writer :=
  mkZWriter (zw_file w) (zw_level w) (zw_in w ++ p).

Definition gzip_Writer_Close (w : gzip_Writer) : M (option error) :=
  os_File_Write (zw_file w) (gzip_encode (zw_level w) (zw_in w)).

(** [sha256.New()], its [Write] and [Sum(nil)]. *)
Definition sha256_New : list byte := [].
Definition hash_Write (h : list byte) (p : list byte) : list byte := h ++ p.
Definition hash_Sum (h : list byte) : list byte := sha256_Sum h.

(** [io.Copy(io.MultiWriter(hash, g), r)]: everything [r] delivers goes
    to both writers; the count and [r]'s error come back. *)
Definition io_Copy (hash : list byte) (w : gzip_Writer) (r : Reader)
  : (Z * option error) * (list byte * gzip_Writer) :=
  ((Z.of_nat (length (r_data r)), r_err r),
   (hash_Write hash (r_data r), gzip_Writer_Write w (r_data r))).

(** [NewContentStore]. *)
Definition NewContentStore (base : string)
  : M (option ContentStore * option error) :=
  err ← os_MkdirAll base (oct 7 5 0);
  match err with
  | Some e => mret (None, Some e)
  | None => mret (Some (mkStore base), None)
  end.

Definition object_path (s : ContentStore) (meta : MetaObject) : string :=
  filepath.Join [basePath s; transformKey (Oid meta)] +:+ ".gz".

(** [Get]. *)
Definition Get (s : ContentStore) (meta : MetaObject) (fromByte : Z)
  : M (option bothCloser * option error) :=
  let path := filepath.Join [basePath s; transformKey (Oid meta)] +:+ ".gz" in
  r ← os_Open path;
  match r with
  | Err e => mret (None, Some e)
  | Ok file =>
      match gzip_NewReader file with
      | Err e => mret (None, Some e)
      | Ok z =>
          if 0 <? fromByte then
            let '((_, err), z') := io_CopyN_Discard z fromByte in
            mret (Some (mkBoth file z'), err)
          else mret (Some (mkBoth file z), None)
      end
  end.

(** [Put]. *)
Definition Put (s : ContentStore) (meta : MetaObject) (r : Reader)
  : M (option error) :=
  let path := filepath.Join [basePath s; transformKey (Oid meta)] +:+ ".gz" in
  let tmpPath := path +:+ ".tmp" in
  let dir := filepath.Dir path in
  err ← os_MkdirAll dir (oct 7 5 0);
  match err with
  | Some e => mret (Some e)
  | None =>
      res ← os_OpenFile tmpPath (Z.lor (Z.lor O_CREATE O_WRONLY) O_EXCL) (oct 6 4 0);
      match res with
      | Err e => mret (Some e)
      | Ok file =>
          defer (os_Remove tmpPath)
            (let w := gzip_NewWriterLevel file gzip_BestCompression in
             let hash := sha256_New in
             let '((written, err), (hash, w)) := io_Copy hash w r in
             match err with
             | Some e => let _ := os_File_Close file in mret (Some e)
             | None =>
                 err ← gzip_Writer_Close w;
                 match err with
                 | Some e => let _ := os_File_Close file in mret (Some e)
                 | None =>
                     let _ := os_File_Close file in
                     if bool_decide (written ≠ Size meta)
                     then mret (Some errSizeMismatch)
                     else
                       let shaStr := hex_EncodeToString (hash_Sum hash) in
                       if bool_decide (shaStr ≠ Oid meta)
                       then mret (Some errHashMismatch)
                       else
                         err ← os_Rename tmpPath path;
                         match err with
                         | Some e => mret (Some e)
                         | None => mret None
                         end
                 end
             end)
      end
  end.

(** [Exists]. *)
Definition Exists (s : ContentStore) (meta : MetaObject) : M bool :=
  let path := filepath.Join [basePath s; transformKey (Oid meta)] +:+ ".gz" in
  r ← os_Stat path;
  let err := match r with Ok _ => None | Err e => Some e end in
  if os_IsNotExist err then mret false else mret true.

End Store.

(** The bytes of the file at the final path of an object, when a regular
    file is there. *)
Definition object_bytes (s : ContentStore) (meta : MetaObject) (fs : FS)
  : option (list byte) :=
  match resolve (object_path s meta) with
  | Ok p => match tree.find p (root fs) with
            | Ok (File _ c) => Some c
            | _ => None
            end
  | Err _ => None
  end.

(** The steps of [Put] that come before its checks go through: the
    directory of the object can be made, the temporary file can be created
    in it, and the device takes data. *)
Definition put_io_ok (s : ContentStore) (meta : MetaObject) (fs : FS) : bool :=
  let path := object_path s meta in
  let (err, fs1) := os_MkdirAll (filepath.Dir path) (oct 7 5 0) fs in
  match err with
  | Some _ => false
  | None =>
      match fst (os_OpenFile (path +:+ ".tmp")
                   (Z.lor (Z.lor O_CREATE O_WRONLY) O_EXCL) (oct 6 4 0) fs1) with
      | Ok _ => bool_decide (wfault fs = None)
      | Err _ => false
      end
  end.

(** Everything a fresh handle still delivers, read with [ioutil.ReadAll]. *)
Definition read_all (h : bothCloser) : result unit (list byte * option error) :=
  fst (ioutil_ReadAll (S (length (z_rest (g h)))) [] (h, [])).

(** ** A small codec and digest to run the store on

    A stored-block "gzip" (two magic bytes, then the data as it is) and a
    digest that keeps the first four bytes.  They stand in for the real ones when
    the store is evaluated on concrete inputs. *)

Module demo.

Definition encode (level : Z) (b : list byte) : list byte :=
  x1f :: x8b :: b.

Definition decode (c : list byte) : result error (list byte * gz_end) :=
  match c with
  | x1f :: x8b :: b => Ok (b, GzOK)
  | _ => Err gzip_ErrHeader
  end.

Definition digest (b : list byte) : list byte := take 4 b.

Definition bytes (s : string) : list byte := String.list_byte_of_string s.

Definition empty_disk : FS :=
  mkFS (Dir (oct 7 5 5) ∅) 0 None.

Definition store : ContentStore := mkStore "data".

Definition hello : list byte := bytes "hello world".

(** The descriptor of [b]: its digest in hexadecimal and its length. *)
Definition describe (b : list byte) : MetaObject :=
  mkMeta (hex_EncodeToString (digest b)) (Z.of_nat (length b)).

(** The disk after a successful [Put] of [hello]. *)
Definition stored_disk : FS :=
  snd (Put encode digest store (describe hello) (mkReader hello None)
         empty_disk).

(** The disk while a [Put] of [hello] is under way: its directory made
    and its temporary file created. *)
Definition busy_disk : FS :=
  let path := object_path store (describe hello) in
  snd (os_OpenFile (path +:+ ".tmp")
         (Z.lor (Z.lor O_CREATE O_WRONLY) O_EXCL) (oct 6 4 0)
         (snd (os_MkdirAll (filepath.Dir path) (oct 7 5 0) empty_disk))).

(** A store directory in which a regular file sits where the first
    shard directory of the identifier [abcdef1234] would be. *)
Definition blocked_disk : FS :=
  mkFS (Dir (oct 7 5 5)
          {[ "data" := Dir (oct 7 5 0) {[ "ab" := File (oct 6 4 0) [] ]} ]})
    0 None.

(** A handle as [Get] returns it for an object whose compressed data is
    damaged after the header: the reader will end with the inflater's
    error. *)
Definition damaged_handle : bothCloser :=
  mkBoth (mkFile ["data"; "x.gz"] (File (oct 6 4 0) [x1f; x8b]) O_RDONLY false)
         (mkZReader [] (GzInflateErr flate_CorruptInputError) None).

(** That handle after a [Read] (which runs into the damage) and a first
    [Close]: the file is closed and the inflater keeps its error. *)
Definition spent_handle : bothCloser :=
  fst (snd (bothCloser_Close (snd (bothCloser_Read 512 (damaged_handle, []))))).

End demo.


(** ** Where objects are

    The elements of the base path of a store, as the kernel resolves
    them. *)
Definition base_elems (s : ContentStore) : list string :=
  rev (fold_left walk_step (filepath.split (basePath s)) []).

(** The elements an identifier adds below the base: the file itself for a
    short identifier, two shard directories and the file for a long one. *)
Definition shard_elems (oid : string) : list string :=
  if (String.length oid <? 5)%nat then [oid +:+ ".gz"]
  else [slice 0 2 oid; slice 2 4 oid;
        slice 4 (String.length oid) oid +:+ ".gz"].

(** The store holds what it says: every file at the final path of a
    hexadecimal identifier is the compressed form of some content whose
    hash is that identifier. *)
Definition store_ok (encode : Z → list byte → list byte)
    (sum : list byte → list byte) (s : ContentStore) (fs : FS) : Prop :=
  ∀ oid size c,
    plain oid = true → oid ≠ "" →
    object_bytes s (mkMeta oid size) fs = Some c →
    ∃ b, c = encode gzip_BestCompression b
         ∧ hex_EncodeToString (sum b) = oid.

(** ** A decoder that can find damage, and a damaged object

    After the two magic bytes the data must end with a zero byte; without
    it the data is delivered and the inflater then reports damage. *)

Module damaged.

Definition decode (c : list byte) : result error (list byte * gz_end) :=
  match c with
  | x1f :: x8b :: rest =>
      match rev rest with
      | x00 :: r => Ok (rev r, GzOK)
      | _ => Ok (rest, GzInflateErr flate_CorruptInputError)
      end
  | _ => Err gzip_ErrHeader
  end.

(** A store directory with three files: [ab.gz] is cut short, [cd.gz] is
    not gzip at all, [ef.gz] is whole. *)
Definition disk : FS :=
  mkFS (Dir (oct 7 5 5)
          {[ "data" :=
               Dir (oct 7 5 0)
                 (<[ "ab.gz" := File (oct 6 4 0) (x1f :: x8b :: demo.bytes "hello") ]>
                    (<[ "cd.gz" := File (oct 6 4 0) (demo.bytes "hello") ]>
                       {[ "ef.gz" := File (oct 6 4 0)
                                       (x1f :: x8b :: demo.bytes "hello" ++ [x00]) ]})) ]})
    0 None.

End damaged.

(** * Properties *)

(** ** The path functions on the examples of their documentation *)

Example clean_examples :
  map filepath.Clean
    ["abc"; "abc/def/"; ""; "/"; "//abc//"; "abc/./def"; "abc/def/../..";
     "/abc/def/../../.."; "abc/def/../../../ghi/jkl/../../../mno";
     "/../abc"; "abc/../../././../def"; "../../"]
  = ["abc"; "abc/def"; "."; "/"; "/abc"; "abc/def"; "."; "/";
     "../../mno"; "/abc"; "../../def"; "../.."].
Proof. reflexivity. Qed.

Example dir_examples :
  map filepath.Dir ["/foo/bar/baz.js"; "/foo/bar/baz"; "/foo/bar/baz/";
                    "dev.txt"; "../todo.txt"; ".."; "."; "/"; ""; "a//b"]
  = ["/foo/bar"; "/foo/bar"; "/foo/bar/baz"; "."; ".."; "."; "."; "/"; "."; "a"].
Proof. reflexivity. Qed.

Example join_examples :
  map filepath.Join [["a"; "b"]; ["a"; ""]; [""; "b"]; ["/"; "a"]; ["a/b"; "../../../xyz"]; [""; ""]]
  = ["a/b"; "a"; "b"; "/a"; "../xyz"; ""].
Proof. reflexivity. Qed.

Example shard_examples :
  transformKey "abc" = "abc" ∧ transformKey "abcdef1234" = "ab/cd/ef1234".
Proof. split; reflexivity. Qed.

(** ** Strings *)

Local Arguments String.append !_ _ / : simpl nomatch.

Lemma plain_nosep (s : string) : plain s = true → nosep s = true.
Proof.
  induction s as [|c s IH]; simpl; [done|].
  intros [[-> _]%andb_prop Hs]%andb_prop. simpl. auto.
Qed.

Lemma plain_substring (s : string) : ∀ i n,
  plain s = true → plain (String.substring i n s) = true.
Proof.
  induction s as [|c s IH]; intros i n Hs; [by destruct i, n|].
  simpl in Hs. apply andb_prop in Hs as [Hc Hs].
  destruct i as [|i]; simpl.
  - destruct n as [|n]; simpl; [done|]. rewrite Hc. simpl. by apply IH.
  - by apply IH.
Qed.

Lemma length_substring_le (s : string) : ∀ i n,
  (i + n ≤ String.length s)%nat → String.length (String.substring i n s) = n.
Proof.
  induction s as [|c s IH]; intros i n Hl; simpl in *.
  - assert (i = 0%nat ∧ n = 0%nat) as [-> ->] by lia. done.
  - destruct i as [|i]; simpl.
    + destruct n as [|n]; simpl; [done|]. f_equal. apply IH. lia.
    + apply IH. lia.
Qed.

(** A string is its prefix followed by the rest. *)
Lemma substring_split (s : string) : ∀ n,
  (n ≤ String.length s)%nat →
  s = String.substring 0 n s +:+ String.substring n (String.length s - n) s.
Proof.
  induction s as [|c s IH]; intros n Hn; simpl in *.
  - by replace n with 0%nat by lia.
  - destruct n as [|n]; simpl.
    + f_equal. clear. induction s; simpl; congruence.
    + f_equal. apply IH. lia.
Qed.

Lemma substring_shift (s : string) : ∀ i n k,
  (k ≤ String.length s)%nat →
  String.substring i n (String.substring k (String.length s - k) s)
  = String.substring (k + i) n s.
Proof.
  induction s as [|c s IH]; intros i n k Hk; simpl in *.
  - by replace k with 0%nat by lia.
  - destruct k as [|k]; simpl.
    + f_equal. clear. replace (String.substring 0 (String.length s) s) with s; [done|].
      induction s; simpl; congruence.
    + apply IH. lia.
Qed.

(** ** Paths: elements of a path name *)

Lemma split_not_nil (s : string) : filepath.split s ≠ [].
Proof.
  destruct s as [|c s]; simpl; [done|].
  destruct (is_sep c); [done|]. by destruct (filepath.split s).
Qed.

Lemma split_nosep (s : string) : nosep s = true → filepath.split s = [s].
Proof.
  induction s as [|c s IH]; simpl; [done|].
  intros [Hc Hs]%andb_prop. apply negb_true_iff in Hc. rewrite Hc.
  by rewrite IH.
Qed.

Lemma split_snoc (s : string) : ∃ l x, filepath.split s = l ++ [x].
Proof.
  destruct (filepath.split s) as [|y ys] eqn:E using rev_ind.
  - by apply split_not_nil in E.
  - eauto.
Qed.

Lemma split_Forall_nosep (s : string) :
  Forall (λ e, nosep e = true) (filepath.split s).
Proof.
  induction s as [|c s IH]; simpl; [by repeat constructor|].
  destruct (is_sep c) eqn:Hc; [by constructor|].
  destruct (filepath.split s) as [|x xs].
  - constructor; [simpl; by rewrite Hc|constructor].
  - inversion IH; subst. constructor; [|done]. simpl. by rewrite Hc.
Qed.

Lemma split_app_nosep (s t : string) : ∀ l x,
  nosep t = true →
  filepath.split s = l ++ [x] →
  filepath.split (s +:+ t) = l ++ [x +:+ t].
Proof.
  induction s as [|c s IH]; intros l x Ht E; simpl in *.
  - destruct l as [|y l]; [|by destruct l]. injection E as <-.
    by apply split_nosep.
  - destruct (is_sep c).
    + destruct l as [|y l]; simpl in E.
      * injection E as _ E. by apply split_not_nil in E.
      * injection E as <- E. simpl. f_equal. by apply IH.
    + destruct (filepath.split s) as [|y ys] eqn:Es.
      { by apply split_not_nil in Es. }
      destruct l as [|z l]; simpl in E.
      * injection E as <- ->. by rewrite (IH [] y).
      * injection E as <- ->. by rewrite (IH (y :: l) x).
Qed.

Lemma upto_last_sep_nosep (t : string) :
  nosep t = true → filepath.upto_last_sep t = "".
Proof.
  induction t as [|c t IH]; simpl; [done|].
  intros [Hc Ht]%andb_prop. apply negb_true_iff in Hc. rewrite Hc.
  by rewrite IH.
Qed.

Lemma upto_last_sep_app (s t : string) :
  nosep t = true → filepath.upto_last_sep (s +:+ t) = filepath.upto_last_sep s.
Proof.
  intros Ht. induction s as [|c s IH]; simpl.
  - by apply upto_last_sep_nosep.
  - by rewrite IH.
Qed.

Lemma split_singleton_empty (s : string) : filepath.split s = [""] → s = "".
Proof.
  destruct s as [|c s]; simpl; [done|].
  destruct (is_sep c).
  - intros [=E]. by apply split_not_nil in E.
  - by destruct (filepath.split s).
Qed.

(** Cutting a path after its last separator leaves its directory elements
    and an empty last element. *)
Lemma split_upto_last_sep (s : string) : ∀ l x,
  filepath.split s = l ++ [x] →
  filepath.split (filepath.upto_last_sep s) = l ++ [""].
Proof.
  induction s as [|c s IH]; intros l x E; simpl in *.
  - destruct l as [|y l]; [done|by destruct l].
  - destruct (is_sep c) eqn:Hc.
    + destruct l as [|y l]; simpl in E.
      * injection E as _ E. by apply split_not_nil in E.
      * injection E as <- E. simpl. rewrite Hc. f_equal. by eapply IH.
    + destruct (filepath.split s) as [|y ys] eqn:Es.
      { by apply split_not_nil in Es. }
      destruct l as [|z l]; simpl in E.
      * injection E as <- ->.
        specialize (IH [] y eq_refl). apply split_singleton_empty in IH.
        by rewrite IH.
      * injection E as <- ->.
        specialize (IH (y :: l) x eq_refl).
        destruct (filepath.upto_last_sep s) as [|c' u] eqn:Eu.
        { simpl in IH. by destruct l. }
        rewrite <- Eu in *. clear Eu.
        change (filepath.split (String c (filepath.upto_last_sep s))
                = (String c y :: l) ++ [""]).
        simpl. rewrite Hc, IH. done.
Qed.

Lemma split_sep_cons (s : string) :
  filepath.split ("/" +:+ s) = "" :: filepath.split s.
Proof. done. Qed.

Lemma split_app_sep (x s : string) :
  nosep x = true →
  filepath.split (x +:+ String "/" s) = x :: filepath.split s.
Proof.
  induction x as [|c x IH]; simpl; [done|].
  intros [Hc Hx]%andb_prop. apply negb_true_iff in Hc. rewrite Hc.
  by rewrite IH.
Qed.

Lemma split_join (l : list string) :
  l ≠ [] → Forall (λ e, nosep e = true) l →
  filepath.split (filepath.join_sep l) = l.
Proof.
  induction l as [|x l IH]; [done|]. intros _ Hl.
  inversion Hl as [|? ? Hx Hl']; subst.
  destruct l as [|y l].
  - by apply split_nosep.
  - change (filepath.join_sep (x :: y :: l))
      with (x +:+ String "/" (filepath.join_sep (y :: l))).
    rewrite split_app_sep by done. f_equal. by apply IH.
Qed.

(** ** Paths: resolution and [Clean] *)

Lemma walk_step_name (seen : list string) (e : string) :
  is_name e = true → walk_step seen e = e :: seen.
Proof.
  unfold is_name, walk_step. intros [H1 H2]%andb_prop.
  apply negb_true_iff in H1, H2. by rewrite H1, H2.
Qed.

Lemma fold_walk_names (l : list string) : ∀ acc,
  Forall (λ e, is_name e = true) l →
  fold_left walk_step l acc = rev l ++ acc.
Proof.
  induction l as [|e l IH]; intros acc Hl; simpl; [done|].
  inversion Hl; subst. rewrite walk_step_name, IH by done.
  by rewrite <- app_assoc.
Qed.

Lemma fold_walk_dotdots (k : nat) :
  fold_left walk_step (replicate k "..") [] = [].
Proof. induction k; simpl; auto. Qed.

Lemma is_name_long (e : string) : (3 ≤ String.length e)%nat → is_name e = true.
Proof.
  intros Hl. unfold is_name.
  rewrite !bool_decide_eq_false_2; [done| |]; intros H;
    [|destruct H]; subst; simpl in Hl; lia.
Qed.

Lemma length_append (s t : string) :
  String.length (s +:+ t) = (String.length s + String.length t)%nat.
Proof. induction s; simpl; congruence. Qed.

(** [Clean] keeps what resolution keeps, in front of the [..] elements it
    could not cancel. *)
Lemma clean_walk (root : bool) (l : list string) : ∀ W k,
  (root = true → k = 0%nat) →
  Forall (λ e, is_name e = true) W →
  ∃ k', fold_left (filepath.clean_step root) l (W ++ replicate k "..")
        = fold_left walk_step l W ++ replicate k' ".."
      ∧ (root = true → k' = 0%nat)
      ∧ Forall (λ e, is_name e = true) (fold_left walk_step l W).
Proof.
  induction l as [|e l IH]; intros W k Hk HW; simpl; [by eauto|].
  unfold filepath.clean_step at 2, walk_step at 2 4.
  case_bool_decide; [by apply IH|].
  case_bool_decide as He; [subst e|].
  - destruct W as [|w W]; simpl.
    + destruct k as [|k]; simpl.
      * destruct root.
        -- by apply (IH [] 0%nat).
        -- by apply (IH [] 1%nat).
      * destruct root; [by specialize (Hk eq_refl)|].
        by apply (IH [] (S (S k))).
    + inversion HW as [|? ? Hw HW']; subst.
      assert (w ≠ "..") as Hne.
      { intros ->. done. }
      rewrite bool_decide_eq_false_2 by done. by apply IH.
  - apply (IH (e :: W) k); [done|]. constructor; [|done].
    unfold is_name. by rewrite !bool_decide_eq_false_2.
Qed.

Lemma rev_replicate {A} (k : nat) (x : A) : rev (replicate k x) = replicate k x.
Proof.
  induction k as [|k IH]; simpl; [done|].
  by rewrite IH, <- replicate_cons_app.
Qed.

Lemma resolve_nonempty (p : string) :
  p ≠ "" → resolve p = Ok (rev (fold_left walk_step (filepath.split p) [])).
Proof. intros Hp. unfold resolve. by rewrite bool_decide_eq_false_2. Qed.

Lemma clean_stack_nosep (root : bool) (l : list string) : ∀ L,
  Forall (λ e, nosep e = true) l → Forall (λ e, nosep e = true) L →
  Forall (λ e, nosep e = true) (fold_left (filepath.clean_step root) l L).
Proof.
  induction l as [|e l IH]; intros L Hl HL; simpl; [done|].
  inversion Hl; subst. apply IH; [done|].
  unfold filepath.clean_step. repeat case_bool_decide; try done.
  - destruct L as [|t L]; [destruct root; by repeat constructor|].
    inversion HL; subst. case_bool_decide; by repeat constructor.
  - by constructor.
Qed.

(** Resolution does not see the difference between a path and its
    cleaned form. *)
Lemma resolve_Clean (q : string) :
  resolve (filepath.Clean q)
  = Ok (rev (fold_left walk_step (filepath.split q) [])).
Proof.
  unfold filepath.Clean. case_bool_decide as Hq; [by subst|].
  destruct (clean_walk (filepath.rooted q) (filepath.split q) [] 0%nat)
    as (k & EL & Hk & HW); [done|done|].
  simpl in EL. rewrite EL.
  set (W := fold_left walk_step (filepath.split q) []) in *.
  rewrite rev_app_distr, rev_replicate.
  destruct (replicate k ".." ++ rev W) as [|y l] eqn:El.
  { apply app_eq_nil in El as [_ HW0]. apply (f_equal (@rev string)) in HW0.
    rewrite rev_involutive in HW0. rewrite HW0.
    simpl. by destruct (filepath.rooted q). }
  assert (Hl : replicate k ".." ++ rev W ≠ []) by by rewrite El.
  rewrite <- El. clear y l El.
  assert (Hns : Forall (λ e, nosep e = true) (replicate k ".." ++ rev W)).
  { rewrite <- rev_replicate, <- rev_app_distr, <- EL.
    apply Forall_rev, clean_stack_nosep; [apply split_Forall_nosep|done]. }
  assert (fold_left walk_step (replicate k ".." ++ rev W) [] = W) as Hfold.
  { rewrite fold_left_app, fold_walk_dotdots, fold_walk_names.
    - by rewrite rev_involutive, app_nil_r.
    - by apply Forall_rev. }
  rewrite resolve_nonempty.
  - destruct (filepath.rooted q).
    + rewrite split_sep_cons, split_join by done. simpl.
      change (walk_step [] "") with (@nil string). by rewrite Hfold.
    + simpl. by rewrite split_join, Hfold.
  - destruct (filepath.rooted q); [done|]. simpl. intros E.
    pose proof (split_join _ Hl Hns) as Hs. rewrite E in Hs. simpl in Hs.
    rewrite <- Hs in Hfold. simpl in Hfold. subst W.
    rewrite <- Hs in Hl. 
    destruct k; simpl in Hs; [|done].
    rewrite <- Hfold in Hs. done.
Qed.

(** A name with a suffix of three or more characters and no separator
    resolves into the directory of the name, then the suffixed last
    element; its [Dir] resolves into that directory. *)
Lemma resolve_suffix (P sfx : string) (l : list string) (x : string) :
  filepath.split P = l ++ [x] →
  nosep sfx = true → (3 ≤ String.length sfx)%nat →
  resolve (P +:+ sfx) = Ok (rev (fold_left walk_step l []) ++ [x +:+ sfx]).
Proof.
  intros E Hs Hl. rewrite resolve_nonempty.
  - rewrite (split_app_nosep _ _ _ _ Hs E), fold_left_app. simpl.
    rewrite walk_step_name; [done|].
    apply is_name_long. rewrite length_append. lia.
  - intros E'. apply (f_equal String.length) in E'.
    rewrite length_append in E'. simpl in E'. lia.
Qed.

Lemma resolve_Dir_suffix (P sfx : string) (l : list string) (x : string) :
  filepath.split P = l ++ [x] →
  nosep sfx = true →
  resolve (filepath.Dir (P +:+ sfx)) = Ok (rev (fold_left walk_step l [])).
Proof.
  intros E Hs. unfold filepath.Dir.
  rewrite upto_last_sep_app, resolve_Clean by done.
  by rewrite (split_upto_last_sep _ _ _ E), fold_left_app.
Qed.

(** ** The tree *)

Lemma unsnoc_snoc (d : list string) (x : string) :
  tree.unsnoc (d ++ [x]) = Some (d, x).
Proof. unfold tree.unsnoc. rewrite rev_app_distr. simpl. by rewrite rev_involutive. Qed.

Lemma find_app (d q : list string) : ∀ t,
  tree.find (d ++ q) t
  = match tree.find d t with Ok n => tree.find q n | Err e => Err e end.
Proof.
  induction d as [|c d IH]; intros t; simpl; [done|].
  destruct t as [|m es]; [done|]. by destruct (es !! c).
Qed.

Lemma find_snoc (d : list string) (x : string) (t : node) :
  tree.find (d ++ [x]) t
  = match tree.find d t with
    | Ok (Dir _ es) => match es !! x with Some n => Ok n | None => Err ENOENT end
    | Ok (File _ _) => Err ENOTDIR
    | Err e => Err e
    end.
Proof. rewrite find_app. by destruct (tree.find d t) as [[]|]. Qed.

(** Setting the entries of a directory that is there always works. *)
Lemma modify_dir_set (d : list string) (es' : gmap string node) : ∀ t m es,
  tree.find d t = Ok (Dir m es) →
  ∃ t', tree.modify_dir d (λ _, Ok es') t = Ok t'
        ∧ tree.find d t' = Ok (Dir m es').
Proof.
  induction d as [|c d IH]; intros t m es Hf; simpl in *.
  - injection Hf as ->. eauto.
  - destruct t as [|m0 es0]; [done|].
    destruct (es0 !! c) as [n|] eqn:Ec; [|done].
    destruct (IH _ _ _ Hf) as (n' & -> & Hn'). eexists. split; [done|].
    simpl. by rewrite lookup_insert_eq.
Qed.

(** What a rewrite of a directory does is decided by its entries. *)
Lemma modify_dir_at (d : list string)
    (f : gmap string node → result errno (gmap string node)) : ∀ t m es,
  tree.find d t = Ok (Dir m es) →
  tree.modify_dir d f t
  = match f es with
    | Ok es' => tree.modify_dir d (λ _, Ok es') t
    | Err e => Err e
    end.
Proof.
  induction d as [|c d IH]; intros t m es Hf; simpl in *.
  - injection Hf as ->. by destruct (f es).
  - destruct t as [|m0 es0]; [done|].
    destruct (es0 !! c) as [n|] eqn:Ec; [|done].
    rewrite (IH _ _ _ Hf). by destruct (f es).
Qed.

Lemma modify_dir_same (d : list string) : ∀ t m es,
  tree.find d t = Ok (Dir m es) →
  tree.modify_dir d (λ _, Ok es) t = Ok t.
Proof.
  induction d as [|c d IH]; intros t m es Hf; simpl in *.
  - by injection Hf as ->.
  - destruct t as [|m0 es0]; [done|].
    destruct (es0 !! c) as [n|] eqn:Ec; [|done].
    rewrite (IH _ _ _ Hf). by rewrite insert_id.
Qed.

(** Two rewrites in a row are the second one. *)
Lemma modify_dir_set_set (d : list string) (es1 es2 : gmap string node) :
  ∀ t t1,
  tree.modify_dir d (λ _, Ok es1) t = Ok t1 →
  tree.modify_dir d (λ _, Ok es2) t1 = tree.modify_dir d (λ _, Ok es2) t.
Proof.
  induction d as [|c d IH]; intros t t1 H1; simpl in *.
  - destruct t as [|m0 es0]; [done|]. by injection H1 as <-.
  - destruct t as [|m0 es0]; [done|].
    destruct (es0 !! c) as [n|] eqn:Ec; [|done].
    destruct (tree.modify_dir d (λ _, Ok es1) n) as [n1|] eqn:E1; [|done].
    injection H1 as <-. simpl. rewrite lookup_insert_eq.
    rewrite (IH _ _ E1).
    destruct (tree.modify_dir d (λ _, Ok es2) n); [|done].
    by rewrite insert_insert_eq.
Qed.

Lemma modify_dir_find (d : list string) (es1 : gmap string node) : ∀ t t1,
  tree.modify_dir d (λ _, Ok es1) t = Ok t1 →
  ∃ m, tree.find d t1 = Ok (Dir m es1).
Proof.
  induction d as [|c d IH]; intros t t1 H1; simpl in *.
  - destruct t as [|m0 es0]; [done|]. injection H1 as <-. eauto.
  - destruct t as [|m0 es0]; [done|].
    destruct (es0 !! c) as [n|] eqn:Ec; [|done].
    destruct (tree.modify_dir d (λ _, Ok es1) n) as [n1|] eqn:E1; [|done].
    injection H1 as <-. simpl. rewrite lookup_insert_eq. eauto.
Qed.

(** A rewrite after a rewrite, from the tree before both. *)
Lemma modify_dir_after (d : list string) (es1 : gmap string node)
    (f : gmap string node → result errno (gmap string node)) (t t1 : node) :
  tree.modify_dir d (λ _, Ok es1) t = Ok t1 →
  tree.modify_dir d f t1
  = match f es1 with
    | Ok es' => tree.modify_dir d (λ _, Ok es') t
    | Err e => Err e
    end.
Proof.
  intros H1. destruct (modify_dir_find _ _ _ _ H1) as [m Hf].
  rewrite (modify_dir_at _ _ _ _ _ Hf).
  destruct (f es1); [|done]. by apply (modify_dir_set_set _ es1).
Qed.

Lemma mkdir_all_existing (mode : Z) (p : list string) : ∀ t m es,
  tree.find p t = Ok (Dir m es) → tree.mkdir_all mode p t = Ok t.
Proof.
  induction p as [|c p IH]; intros t m es Hf; simpl in *.
  - by injection Hf as ->.
  - destruct t as [|m0 es0]; [done|].
    destruct (es0 !! c) as [n|] eqn:Ec; [|done]. simpl.
    rewrite (IH _ _ _ Hf). by rewrite insert_id.
Qed.

(** After [mkdir_all], every directory on the way is there: as it was, or
    new, with the mode asked for. *)
Lemma mkdir_all_prefix (mode : Z) (q1 q2 : list string) : ∀ t t',
  tree.mkdir_all mode (q1 ++ q2) t = Ok t' →
  ∃ m es, tree.find q1 t' = Ok (Dir m es)
          ∧ ((∃ es0, tree.find q1 t = Ok (Dir m es0))
             ∨ (tree.find q1 t = Err ENOENT ∧ m = mode)).
Proof.
  induction q1 as [|c q1 IH]; intros t t' Hm; simpl in *.
  - destruct q2 as [|c q2]; destruct t as [|m0 es0]; simpl in Hm; try done.
    + injection Hm as <-. do 2 eexists. split; [done|]. left. by eexists.
    + destruct (tree.mkdir_all mode q2 _); [|done]. injection Hm as <-.
      do 2 eexists. split; [done|]. left. by eexists.
  - destruct t as [|m0 es0]; [done|].
    destruct (tree.mkdir_all mode (q1 ++ q2) _) as [n'|] eqn:En; [|done].
    injection Hm as <-. simpl. rewrite lookup_insert_eq.
    destruct (IH _ _ En) as (m & es & Hf & Hor).
    exists m, es. split; [done|].
    destruct (es0 !! c) as [n|] eqn:Ec; simpl in *; [done|].
    right. split; [done|].
    destruct Hor as [[es1 H1]|[_ ->]]; [|done].
    destruct q1; simpl in H1; [by injection H1|done].
Qed.

(** The directory itself afterwards: unchanged tree, or a new empty
    directory where nothing was. *)
Lemma mkdir_all_find (mode : Z) (p : list string) : ∀ t t',
  tree.mkdir_all mode p t = Ok t' →
  ∃ m es, tree.find p t' = Ok (Dir m es)
          ∧ ((tree.find p t = Ok (Dir m es) ∧ t' = t)
             ∨ (tree.find p t = Err ENOENT ∧ m = mode ∧ es = ∅)).
Proof.
  induction p as [|c p IH]; intros t t' Hm; simpl in *.
  - destruct t as [|m0 es0]; [done|]. injection Hm as <-.
    do 2 eexists. split; [done|]. by left.
  - destruct t as [|m0 es0]; [done|].
    destruct (tree.mkdir_all mode p _) as [n'|] eqn:En; [|done].
    injection Hm as <-. simpl. rewrite lookup_insert_eq.
    destruct (IH _ _ En) as (m & es & Hf & Hor).
    exists m, es. split; [done|].
    destruct (es0 !! c) as [n|] eqn:Ec; simpl in *.
    + destruct Hor as [[H1 ->]|H1]; [|by right].
      left. split; [done|]. by rewrite insert_id.
    + right. split; [done|].
      destruct Hor as [[H1 ->]|(_ & -> & ->)]; [|done].
      destruct p; simpl in H1; [by injection H1 as -> ->|done].
Qed.

(** [mkdir_all] on a directory does not change what its names find. *)
Lemma mkdir_all_find_entry (mode : Z) (d : list string) (x : string) (t t' : node) :
  tree.mkdir_all mode d t = Ok t' →
  tree.find (d ++ [x]) t' = tree.find (d ++ [x]) t.
Proof.
  intros Hm. destruct (mkdir_all_find _ _ _ _ Hm) as (m & es & Hf & Hor).
  destruct Hor as [[_ ->]|(H0 & -> & ->)]; [done|].
  by rewrite !find_snoc, Hf, H0.
Qed.

(** *** The entries of one directory

    All the store does to the tree, once the directory of an object is
    there, happens among the entries of that directory. *)

Section Entries.

Variables (d : list string) (t : node) (m : Z) (es0 : gmap string node).
Hypothesis Hd : tree.find d t = Ok (Dir m es0).

Lemma put_entries_same : tree.put_entries d es0 t = t.
Proof. unfold tree.put_entries. by rewrite (modify_dir_same _ _ _ _ Hd). Qed.

Lemma find_put_entries (es : gmap string node) :
  tree.find d (tree.put_entries d es t) = Ok (Dir m es).
Proof.
  unfold tree.put_entries.
  by destruct (modify_dir_set d es _ _ _ Hd) as (t' & -> & ?).
Qed.

Lemma find_entry_put_entries (es : gmap string node) (x : string) :
  tree.find (d ++ [x]) (tree.put_entries d es t)
  = match es !! x with Some n => Ok n | None => Err ENOENT end.
Proof. by rewrite find_snoc, find_put_entries. Qed.

Lemma modify_put_entries (es : gmap string node)
    (f : gmap string node → result errno (gmap string node)) :
  tree.modify_dir d f (tree.put_entries d es t)
  = match f es with
    | Ok es' => Ok (tree.put_entries d es' t)
    | Err e => Err e
    end.
Proof.
  unfold tree.put_entries at 1.
  destruct (modify_dir_set d es _ _ _ Hd) as (t' & Ht' & _). rewrite Ht'.
  rewrite (modify_dir_after _ _ _ _ _ Ht').
  destruct (f es) as [es'|]; [|done]. unfold tree.put_entries.
  by destruct (modify_dir_set d es' _ _ _ Hd) as (t'' & -> & _).
Qed.

End Entries.

Lemma unsnoc_inv (p : list string) :
  match tree.unsnoc p with
  | None => p = []
  | Some (d, x) => p = d ++ [x]
  end.
Proof.
  unfold tree.unsnoc. destruct (rev p) as [|x r] eqn:E.
  - by rewrite <- (rev_involutive p), E.
  - by rewrite <- (rev_involutive p), E.
Qed.

Lemma prefix_of_snoc_ne (d : list string) (x y : string) :
  x ≠ y → prefix_of (d ++ [x]) (d ++ [y]) = false.
Proof.
  intros Hne. induction d as [|c d IH]; simpl.
  - by rewrite bool_decide_eq_false_2.
  - by rewrite bool_decide_eq_true_2.
Qed.

(** ** package os *)

Lemma os_Stat_eq (path : string) (p : list string) (fs : FS) :
  resolve path = Ok p →
  os_Stat path fs
  = (match tree.find p (root fs) with
     | Ok n => Ok (info_of n)
     | Err e => Err (SyscallError e)
     end, fs).
Proof.
  intros Hp. unfold os_Stat, get_fs, mbind, M_bind, mret, M_ret. rewrite Hp.
  by destruct (tree.find p (root fs)).
Qed.

Lemma os_Open_eq (path : string) (p : list string) (fs : FS) :
  resolve path = Ok p →
  os_Open path fs
  = (match tree.find p (root fs) with
     | Ok n => Ok (mkFile p n O_RDONLY false)
     | Err e => Err (SyscallError e)
     end, fs).
Proof.
  intros Hp. unfold os_Open, os_OpenFile, get_fs, mbind, M_bind, mret, M_ret.
  rewrite Hp. pose proof (unsnoc_inv p) as Hu.
  destruct (tree.unsnoc p) as [[d x]|]; subst p.
  - rewrite find_snoc. destruct (tree.find d (root fs)) as [[|m es]|]; try done.
    destruct (es !! x) as [[]|]; done.
  - simpl. by destruct (root fs).
Qed.

Lemma os_MkdirAll_eq (path : string) (perm : Z) (p : list string) (fs : FS) :
  resolve path = Ok p →
  os_MkdirAll path perm fs
  = match tree.mkdir_all (create_mode fs perm) p (root fs) with
    | Ok t => (None, mkFS t (umask fs) (wfault fs))
    | Err e => (Some (SyscallError e), fs)
    end.
Proof.
  intros Hp. unfold os_MkdirAll, get_fs, set_root, mbind, M_bind, mret, M_ret.
  rewrite Hp. by destruct (tree.mkdir_all _ p (root fs)).
Qed.

Section OneDirectory.

Variables (d : list string) (t : node) (m : Z) (es0 : gmap string node).
Hypothesis Hd : tree.find d t = Ok (Dir m es0).
Variables (u : Z) (w : option errno).

(** The file system with [es] in the directory. *)
Local Notation "'disk' es" := (mkFS (tree.put_entries d es t) u w)
  (at level 10, es at level 9, only parsing).

Lemma os_OpenFile_excl (path : string) (x : string) (perm : Z)
    (es : gmap string node) :
  resolve path = Ok (d ++ [x]) →
  let flag := Z.lor (Z.lor O_CREATE O_WRONLY) O_EXCL in
  os_OpenFile path flag perm (disk es)
  = match es !! x with
    | Some _ => (Err (SyscallError EEXIST), disk es)
    | None =>
        let n := File (create_mode (disk es) perm) [] in
        (Ok (mkFile (d ++ [x]) n flag false), disk (<[x := n]> es))
    end.
Proof.
  intros Hp flag.
  unfold os_OpenFile, get_fs, set_root, mbind, M_bind, mret, M_ret.
  rewrite Hp, unsnoc_snoc. cbn [root].
  rewrite (find_put_entries _ _ _ _ Hd).
  destruct (es !! x) as [n|]; [done|].
  change (has_flag flag O_CREATE) with true. cbv iota.
  by rewrite (modify_put_entries _ _ _ _ Hd).
Qed.

Lemma os_File_Write_at (file : os_File) (x : string) (b : list byte)
    (es : gmap string node) :
  f_path file = d ++ [x] → f_closed file = false →
  for_writing (f_flag file) = true →
  os_File_Write file b (disk es)
  = match w with
    | Some e => (Some (SyscallError e), disk es)
    | None =>
        match es !! x with
        | Some (File fm data) =>
            (None, disk (<[x := File fm (b ++ drop (length b) data)]> es))
        | Some (Dir _ _) => (Some (SyscallError EISDIR), disk es)
        | None => (Some (SyscallError EIO), disk es)
        end
    end.
Proof.
  intros Hp Hc Hw.
  unfold os_File_Write, get_fs, set_root, mbind, M_bind, mret, M_ret.
  rewrite Hp, Hc, Hw, unsnoc_snoc. simpl. destruct w; [done|].
  rewrite (modify_put_entries _ _ _ _ Hd).
  by destruct (es !! x) as [[]|].
Qed.

Lemma os_Remove_at (path : string) (x : string) (es : gmap string node) :
  resolve path = Ok (d ++ [x]) →
  os_Remove path (disk es)
  = match es !! x with
    | None => (Some (SyscallError ENOENT), disk es)
    | Some (File _ _) => (None, disk (delete x es))
    | Some (Dir _ sub) =>
        if bool_decide (size sub = 0%nat) then (None, disk (delete x es))
        else (Some (SyscallError ENOTEMPTY), disk es)
    end.
Proof.
  intros Hp.
  unfold os_Remove, get_fs, set_root, mbind, M_bind, mret, M_ret.
  rewrite Hp, unsnoc_snoc. simpl.
  rewrite (modify_put_entries _ _ _ _ Hd).
  destruct (es !! x) as [[|? sub]|]; try done. by case_bool_decide.
Qed.

(** Renaming a regular file within the directory. *)
Lemma os_Rename_at (oldpath newpath : string) (xo xn : string)
    (fm : Z) (data : list byte) (es : gmap string node) :
  resolve oldpath = Ok (d ++ [xo]) → resolve newpath = Ok (d ++ [xn]) →
  xo ≠ xn → es !! xo = Some (File fm data) →
  os_Rename oldpath newpath (disk es)
  = match es !! xn with
    | Some (Dir _ _) => (Some (SyscallError EISDIR), disk es)
    | _ => (None, disk (delete xo (<[xn := File fm data]> es)))
    end.
Proof.
  intros Ho Hn Hne Hxo.
  unfold os_Rename, get_fs, set_root, mbind, M_bind, mret, M_ret.
  rewrite Ho, Hn, !unsnoc_snoc. cbn [root].
  rewrite (find_entry_put_entries _ _ _ _ Hd), Hxo.
  rewrite bool_decide_eq_false_2 by (by intros ?%app_inv_head; simplify_eq).
  rewrite prefix_of_snoc_ne by done.
  rewrite (modify_put_entries _ _ _ _ Hd).
  destruct (es !! xn) as [[]|]; try done;
    by rewrite (modify_put_entries _ _ _ _ Hd).
Qed.

End OneDirectory.

(** ** The store *)

Section StoreFacts.

Variable gzip_encode : Z → list byte → list byte.
Variable gzip_decode : list byte → result error (list byte * gz_end).
Variable sha256_Sum : list byte → list byte.

Hypothesis gzip_decode_encode :
  ∀ b, gzip_decode (gzip_encode gzip_BestCompression b) = Ok (b, GzOK).

(** Where an object lives: the elements of the sharded name split into
    those of its directory and the last one. *)
Lemma object_paths (s : ContentStore) (meta : MetaObject) :
  ∃ (D : list string) (x : string),
    resolve (filepath.Dir (object_path s meta)) = Ok D
    ∧ resolve (object_path s meta) = Ok (D ++ [x +:+ ".gz"])
    ∧ resolve (object_path s meta +:+ ".tmp") = Ok (D ++ [(x +:+ ".gz") +:+ ".tmp"]).
Proof.
  unfold object_path.
  destruct (split_snoc (filepath.Join [basePath s; transformKey (Oid meta)]))
    as (l & x & E).
  exists (rev (fold_left walk_step l [])), x. split; [|split].
  - by apply (resolve_Dir_suffix _ _ l x).
  - by apply resolve_suffix.
  - apply resolve_suffix; [|done|simpl; lia].
    by apply split_app_nosep.
Qed.

Lemma tmp_name_ne (x : string) : x +:+ ".tmp" ≠ x.
Proof.
  intros E. apply (f_equal String.length) in E.
  rewrite length_append in E. simpl in E. lia.
Qed.

Lemma link_put_entries (d : list string) (x : string) (n t : node)
    (m : Z) (es : gmap string node) :
  tree.find d t = Ok (Dir m es) →
  tree.link d x n t = tree.put_entries d (<[x := n]> es) t.
Proof.
  intros Hf. unfold tree.link, tree.put_entries.
  by rewrite (modify_dir_at _ _ _ _ _ Hf).
Qed.

Lemma Put_eq (s : ContentStore) (meta : MetaObject) (r : Reader)
    (t0 : node) (u : Z) (w : option errno) (D : list string) (x : string) :
  resolve (filepath.Dir (object_path s meta)) = Ok D →
  resolve (object_path s meta) = Ok (D ++ [x +:+ ".gz"]) →
  resolve (object_path s meta +:+ ".tmp") = Ok (D ++ [(x +:+ ".gz") +:+ ".tmp"]) →
  let fs := mkFS t0 u w in
  Put gzip_encode sha256_Sum s meta r fs
  = match tree.mkdir_all (create_mode fs (oct 7 5 0)) D t0 with
    | Err e => (Some (SyscallError e), fs)
    | Ok t1 =>
        let fs1 := mkFS t1 u w in
        match tree.find (D ++ [(x +:+ ".gz") +:+ ".tmp"]) t1 with
        | Ok _ => (Some (SyscallError EEXIST), fs1)
        | Err _ =>
            match r_err r with
            | Some e => (Some e, fs1)
            | None =>
                match w with
                | Some e => (Some (SyscallError e), fs1)
                | None =>
                    if bool_decide (Z.of_nat (length (r_data r)) ≠ Size meta)
                    then (Some errSizeMismatch, fs1)
                    else if bool_decide
                              (hex_EncodeToString (sha256_Sum (r_data r)) ≠ Oid meta)
                    then (Some errHashMismatch, fs1)
                    else
                      match tree.find (D ++ [x +:+ ".gz"]) t1 with
                      | Ok (Dir _ _) => (Some (SyscallError EISDIR), fs1)
                      | _ =>
                          (None,
                           mkFS (tree.link D (x +:+ ".gz")
                                   (File (create_mode fs (oct 6 4 0))
                                      (gzip_encode gzip_BestCompression (r_data r)))
                                   t1) u w)
                      end
                end
            end
        end
    end.
Proof.
  intros HD Hp Ht fs. subst fs. unfold Put. fold (object_path s meta).
  unfold defer, mbind, M_bind, mret, M_ret, io_Copy, gzip_Writer_Close,
    gzip_Writer_Write, gzip_NewWriterLevel, hash_Sum, hash_Write, sha256_New.
  cbn [zw_file zw_level zw_in app].
  rewrite (os_MkdirAll_eq _ _ _ _ HD). cbn [root umask wfault].
  destruct (tree.mkdir_all _ D t0) as [t1|e] eqn:Em; [|done].
  destruct (mkdir_all_find _ _ _ _ Em) as (m & es & Hf & _).
  cbv zeta. unfold create_mode. cbn [umask].
  set (tn := (x +:+ ".gz") +:+ ".tmp") in *. set (xn := x +:+ ".gz") in *.
  assert (Hne : tn ≠ xn) by apply tmp_name_ne.
  set (mode := Z.land (Z.land (oct 6 4 0) (oct 7 7 7)) (Z.lnot u)).
  rewrite !(find_snoc D), Hf.
  rewrite <- (put_entries_same _ _ _ _ Hf) at 1.
  rewrite (os_OpenFile_excl _ _ _ _ Hf _ _ _ _ _ _ Ht).
  destruct (es !! tn) as [n|] eqn:Etn.
  { by rewrite (put_entries_same _ _ _ _ Hf). }
  unfold create_mode. cbn [umask]. fold mode. cbv zeta.
  assert (Hclean : ∀ (a : option error) fm data,
    (let (_, fs') :=
       os_Remove (object_path s meta +:+ ".tmp")
         (mkFS (tree.put_entries D (<[tn := File fm data]> es) t1) u w) in
     (a, fs'))
    = (a, mkFS t1 u w)).
  { intros a fm data.
    rewrite (os_Remove_at _ _ _ _ Hf _ _ _ _ _ Ht), lookup_insert_eq.
    by rewrite delete_insert_id, (put_entries_same _ _ _ _ Hf). }
  destruct (r_err r) as [e|]; [by apply Hclean|].
  rewrite (os_File_Write_at _ _ _ _ Hf _ _ _ tn) by done.
  destruct w as [e|]; [by apply Hclean|].
  rewrite lookup_insert_eq, insert_insert_eq, drop_nil, app_nil_r.
  case_bool_decide; [by apply Hclean|].
  case_bool_decide; [by apply Hclean|].
  rewrite (os_Rename_at _ _ _ _ Hf _ _ _ _ tn xn mode _ _ Ht Hp Hne)
    by apply lookup_insert_eq.
  rewrite lookup_insert_ne by done.
  assert (Hdone :
    (let (_, fs') :=
       os_Remove (object_path s meta +:+ ".tmp")
         (mkFS (tree.put_entries D
                (delete tn (<[xn := File mode (gzip_encode gzip_BestCompression (r_data r))]>
                   (<[tn := File mode (gzip_encode gzip_BestCompression (r_data r))]> es)))
                t1) u None) in
     (@None error, fs'))
    = (None, mkFS (tree.link D xn
                     (File mode (gzip_encode gzip_BestCompression (r_data r))) t1)
               u None)).
  { rewrite (os_Remove_at _ _ _ _ Hf _ _ _ _ _ Ht), lookup_delete_eq.
    rewrite delete_insert_ne, delete_insert_id by done.
    by rewrite (link_put_entries _ _ _ _ _ _ Hf). }
  destruct (es !! xn) as [[]|]; [apply Hdone| |apply Hdone].
  apply (Hclean (Some (SyscallError EISDIR))).
Qed.

(** [ReadAll] on a handle returns what the reader still holds; the end
    of a well-formed stream is not an error. *)
Lemma ioutil_ReadAll_spec (fuel : nat) : ∀ (h : bothCloser) log acc,
  (length (z_rest (g h)) < fuel)%nat →
  fst (ioutil_ReadAll fuel acc (h, log))
  = Ok (acc ++ z_rest (g h),
        if bool_decide (end_error (z_end (g h)) = io_EOF) then None
        else Some (end_error (z_end (g h)))).
Proof.
  induction fuel as [|fuel IH]; intros h log acc Hlen; [lia|].
  cbn [ioutil_ReadAll]. unfold mbind, H_bind, bothCloser_Read, g_Read.
  unfold gzip_Reader_Read.
  destruct (z_rest (g h)) as [|c rest] eqn:Er.
  - cbn. by rewrite !app_nil_r.
  - cbn -[take drop]. rewrite IH.
    + cbn -[take drop]. by rewrite <- app_assoc, take_drop.
    + cbn -[take drop]. rewrite length_drop.
      simpl in *. lia.
Qed.

Lemma read_all_spec (h : bothCloser) :
  z_end (g h) = GzOK → read_all h = Ok (z_rest (g h), None).
Proof.
  intros He. unfold read_all. rewrite ioutil_ReadAll_spec by lia.
  by rewrite He.
Qed.

Lemma object_bytes_find (s : ContentStore) (meta : MetaObject) (fs : FS)
    (c : list byte) :
  object_bytes s meta fs = Some c →
  ∃ p perm, resolve (object_path s meta) = Ok p
            ∧ tree.find p (root fs) = Ok (File perm c).
Proof.
  unfold object_bytes. destruct (resolve _) as [p|]; [|done].
  destruct (tree.find p (root fs)) as [[perm c'|]|] eqn:E; try done.
  intros [= ->]. eauto.
Qed.

(** [Get] on an object whose file is a gzip member. *)
Lemma Get_stored (s : ContentStore) (meta : MetaObject) (fs : FS)
    (c b : list byte) (e : gz_end) (fromByte : Z) :
  object_bytes s meta fs = Some c →
  gzip_decode c = Ok (b, e) →
  ∃ file, f_closed file = false ∧
    Get gzip_decode s meta fromByte fs
    = (if 0 <? fromByte
       then let '((_, err), z') := io_CopyN_Discard (mkZReader b e None) fromByte in
            (Some (mkBoth file z'), err)
       else (Some (mkBoth file (mkZReader b e None)), None),
       fs).
Proof.
  intros (p & perm & Hp & Hf)%object_bytes_find Hz.
  exists (mkFile p (File perm c) O_RDONLY false). split; [done|].
  unfold Get. fold (object_path s meta). unfold mbind, M_bind.
  rewrite (os_Open_eq _ _ _ Hp), Hf.
  unfold gzip_NewReader. cbn [f_closed f_node]. rewrite Hz.
  destruct (0 <? fromByte); [|done].
  by destruct (io_CopyN_Discard _ _) as [[? ?] ?].
Qed.

(** Where a [Put] that reports an error leaves the file system: as it
    was, or with the directories of the object made. *)
Lemma Put_error_state (s : ContentStore) (meta : MetaObject) (r : Reader)
    (fs fs' : FS) (e : error) :
  Put gzip_encode sha256_Sum s meta r fs = (Some e, fs') →
  fs' = fs
  ∨ fs' = snd (os_MkdirAll (filepath.Dir (object_path s meta)) (oct 7 5 0) fs).
Proof.
  destruct (object_paths s meta) as (D & x & HD & Hp & Ht).
  destruct fs as [t0 u w].
  rewrite (Put_eq _ _ _ _ _ _ _ _ HD Hp Ht), (os_MkdirAll_eq _ _ _ _ HD).
  cbn [root umask wfault].
  destruct (tree.mkdir_all _ D t0) as [t1|]; [|intros [= _ <-]; by left].
  cbv zeta.
  repeat (match goal with
          | |- context [match ?x with _ => _ end] => destruct x
          end; try (intros [= _ <-]; by right)); done.
Qed.

(** Making the directories of an object does not change what its final
    path names. *)
Lemma MkdirAll_object (s : ContentStore) (meta : MetaObject) (fs : FS)
    (p : list string) :
  resolve (object_path s meta) = Ok p →
  tree.find p (root (snd (os_MkdirAll (filepath.Dir (object_path s meta))
                            (oct 7 5 0) fs)))
  = tree.find p (root fs).
Proof.
  destruct (object_paths s meta) as (D & x & HD & Hp & Ht).
  rewrite Hp. intros [= <-]. rewrite (os_MkdirAll_eq _ _ _ _ HD).
  destruct (tree.mkdir_all _ D (root fs)) as [t1|] eqn:Em; [|done].
  apply (mkdir_all_find_entry _ _ _ _ _ Em).
Qed.

Lemma Put_error_object (s : ContentStore) (meta : MetaObject) (r : Reader)
    (fs fs' : FS) (e : error) (p : list string) :
  Put gzip_encode sha256_Sum s meta r fs = (Some e, fs') →
  resolve (object_path s meta) = Ok p →
  tree.find p (root fs') = tree.find p (root fs).
Proof.
  intros [->| ->]%Put_error_state Hp; [done|]. by apply MkdirAll_object.
Qed.

Lemma Exists_eq (s : ContentStore) (meta : MetaObject) (fs : FS)
    (p : list string) :
  resolve (object_path s meta) = Ok p →
  Exists s meta fs
  = (match tree.find p (root fs) with
     | Err ENOENT => false
     | _ => true
     end, fs).
Proof.
  intros Hp. unfold Exists. fold (object_path s meta). unfold mbind, M_bind.
  rewrite (os_Stat_eq _ _ _ Hp).
  by destruct (tree.find p (root fs)) as [|[]].
Qed.

(** What a [Put] that reports no error has done: the reader ended
    cleanly, size and hash matched, and the compressed bytes are at the
    final path. *)
Lemma Put_ok_object (s : ContentStore) (meta : MetaObject) (r : Reader)
    (fs fs' : FS) :
  Put gzip_encode sha256_Sum s meta r fs = (None, fs') →
  r_err r = None
  ∧ Size meta = Z.of_nat (length (r_data r))
  ∧ Oid meta = hex_EncodeToString (sha256_Sum (r_data r))
  ∧ object_bytes s meta fs'
    = Some (gzip_encode gzip_BestCompression (r_data r)).
Proof.
  destruct (object_paths s meta) as (D & x & HD & Hp & Ht).
  destruct fs as [t0 u w].
  rewrite (Put_eq _ _ _ _ _ _ _ _ HD Hp Ht). cbv zeta.
  destruct (tree.mkdir_all _ D t0) as [t1|] eqn:Em; [|done].
  destruct (mkdir_all_find _ _ _ _ Em) as (m & es & Hf & _).
  destruct (tree.find (D ++ [_ +:+ ".tmp"]) t1); [done|].
  destruct (r_err r); [done|]. destruct w; [done|].
  case_bool_decide as Hs; [done|]. case_bool_decide as Hh; [done|].
  assert (∀ fs0, (@None error, mkFS (tree.link D (x +:+ ".gz")
             (File (create_mode (mkFS t0 u None) (oct 6 4 0))
                (gzip_encode gzip_BestCompression (r_data r))) t1) u None)
           = (None, fs0) →
          None = @None error ∧ Size meta = Z.of_nat (length (r_data r))
          ∧ Oid meta = hex_EncodeToString (sha256_Sum (r_data r))
          ∧ object_bytes s meta fs0
            = Some (gzip_encode gzip_BestCompression (r_data r))) as Hok.
  { intros fs0 [= <-]. repeat split; [done..|].
    unfold object_bytes. rewrite Hp. cbn [root].
    rewrite (link_put_entries _ _ _ _ _ _ Hf).
    by rewrite (find_entry_put_entries _ _ _ _ Hf), lookup_insert_eq. }
  destruct (tree.find (D ++ [x +:+ ".gz"]) t1) as [[]|]; by try apply Hok.
Qed.

(** C1: for every byte sequence [b], after a successful [Put] of [b]
    under the descriptor made of the hexadecimal hash of [b] and the
    length of [b], [Get] with the same descriptor and offset 0 returns,
    without error, a handle whose stream is exactly [b]. *)
Theorem put_get_roundtrip (s : ContentStore) (b : list byte) (fs fs' : FS) :
  let meta := mkMeta (hex_EncodeToString (sha256_Sum b)) (Z.of_nat (length b)) in
  Put gzip_encode sha256_Sum s meta (mkReader b None) fs = (None, fs') →
  ∃ h, Get gzip_decode s meta 0 fs' = ((Some h, None), fs')
       ∧ read_all h = Ok (b, None).
Proof.
  intros meta (_ & _ & _ & Hobj)%Put_ok_object. cbn [r_data] in Hobj.
  destruct (Get_stored s meta fs' _ b GzOK 0 Hobj (gzip_decode_encode b))
    as (file & _ & HG).
  eexists. split; [exact HG|]. by apply read_all_spec.
Qed.

(** C3: for an object stored with content [b], [Get] from offset [k]
    with [0 <= k <= len(b)] returns, without error, a handle whose stream
    is [b[k:]]; from an offset beyond [len(b)] it returns the error
    [io.EOF] to its caller. *)
Theorem get_from_offset (s : ContentStore) (meta : MetaObject) (fs : FS)
    (c b : list byte) (k : Z) :
  object_bytes s meta fs = Some c →
  gzip_decode c = Ok (b, GzOK) →
  (0 ≤ k ≤ Z.of_nat (length b) →
     ∃ h, Get gzip_decode s meta k fs = ((Some h, None), fs)
          ∧ read_all h = Ok (drop (Z.to_nat k) b, None))
  ∧ (Z.of_nat (length b) < k →
     snd (fst (Get gzip_decode s meta k fs)) = Some io_EOF).
Proof.
  intros Hobj Hz.
  destruct (Get_stored s meta fs c b GzOK k Hobj Hz) as (file & _ & HG).
  rewrite HG. unfold io_CopyN_Discard. cbn [z_rest z_end z_err]. split.
  - intros Hk. destruct (0 <? k) eqn:E0.
    + apply Z.ltb_lt in E0.
      rewrite (proj2 (Z.leb_gt k 0)), (proj2 (Z.leb_le k _)) by lia.
      eexists. split; [done|]. by apply read_all_spec.
    + apply Z.ltb_ge in E0. replace k with 0 by lia.
      eexists. split; [done|]. by apply read_all_spec.
  - intros Hk.
    rewrite (proj2 (Z.ltb_lt 0 k)), (proj2 (Z.leb_gt k 0)),
      (proj2 (Z.leb_gt k _)) by lia.
    done.
Qed.

(** C10: [Get] with an offset beyond the decompressed length of the
    stored object returns both a handle and [io.EOF]: the handle is not
    [nil], its file is still open, a [Read] on it reports the end of the
    stream, and [Close] releases it without error. *)
Theorem get_past_end (s : ContentStore) (meta : MetaObject) (fs : FS)
    (c b : list byte) (k : Z) :
  object_bytes s meta fs = Some c →
  gzip_decode c = Ok (b, GzOK) →
  Z.of_nat (length b) < k →
  ∃ h, Get gzip_decode s meta k fs = ((Some h, Some io_EOF), fs)
       ∧ f_closed (f h) = false
       ∧ (∀ n, fst (bothCloser_Read n (h, [])) = ([], Some io_EOF))
       ∧ fst (bothCloser_Close (h, [])) = None.
Proof.
  intros Hobj Hz Hk.
  destruct (Get_stored s meta fs c b GzOK k Hobj Hz) as (file & Hopen & HG).
  rewrite HG. unfold io_CopyN_Discard. cbn [z_rest z_end z_err].
  rewrite (proj2 (Z.ltb_lt 0 k)), (proj2 (Z.leb_gt k 0)),
    (proj2 (Z.leb_gt k _)) by lia.
  eexists. split; [done|]. cbn [f g]. split; [done|]. split; [done|].
  unfold bothCloser_Close, mbind, H_bind, g_Close, f_Close, os_File_Close.
  cbn [f g]. by rewrite Hopen.
Qed.

(** A [Put] that reports an error leaves the final path of the object
    as it was. *)
Lemma Put_error_frame (s : ContentStore) (meta : MetaObject) (r : Reader)
    (fs fs' : FS) (e : error) :
  Put gzip_encode sha256_Sum s meta r fs = (Some e, fs') →
  object_bytes s meta fs' = object_bytes s meta fs
  ∧ fst (Exists s meta fs') = fst (Exists s meta fs).
Proof.
  intros HP. destruct (object_paths s meta) as (D & x & _ & Hp & _).
  pose proof (Put_error_object _ _ _ _ _ _ _ HP Hp) as Hfind.
  unfold object_bytes. by rewrite Hp, !(Exists_eq _ _ _ _ Hp), Hfind.
Qed.

(** The errors of a [Put] from a reader that does not fail: a failed
    system call, or one of the two checks, the size first. *)
Lemma Put_error_kinds (s : ContentStore) (meta : MetaObject) (b : list byte)
    (fs fs' : FS) (e : error) :
  Put gzip_encode sha256_Sum s meta (mkReader b None) fs = (Some e, fs') →
  (∃ n, e = SyscallError n)
  ∨ (e = errSizeMismatch ∧ Z.of_nat (length b) ≠ Size meta)
  ∨ (e = errHashMismatch ∧ Z.of_nat (length b) = Size meta
     ∧ hex_EncodeToString (sha256_Sum b) ≠ Oid meta).
Proof.
  destruct (object_paths s meta) as (D & x & HD & Hp & Ht).
  destruct fs as [t0 u w].
  rewrite (Put_eq _ _ _ _ _ _ _ _ HD Hp Ht). cbv zeta. cbn [r_data r_err].
  destruct (tree.mkdir_all _ D t0) as [t1|]; [|intros [= <- _]; eauto].
  destruct (tree.find (D ++ [_ +:+ ".tmp"]) t1); [intros [= <- _]; eauto|].
  destruct w; [intros [= <- _]; eauto|].
  case_bool_decide; [intros [= <- _]; eauto|].
  case_bool_decide; [intros [= <- _]; eauto 6|].
  destruct (tree.find (D ++ [x +:+ ".gz"]) t1) as [[]|];
    intros [= <- _] || intros [=]; eauto.
Qed.


(** [Put] does succeed: with the steps before the checks going through,
    the descriptor right and no directory sitting at the final path, it
    returns [nil]. *)
Lemma Put_succeeds (s : ContentStore) (meta : MetaObject) (b : list byte)
    (fs : FS) :
  put_io_ok s meta fs = true →
  Size meta = Z.of_nat (length b) →
  Oid meta = hex_EncodeToString (sha256_Sum b) →
  (∀ info, fst (os_Stat (object_path s meta) fs) = Ok info →
           fi_IsDir info = false) →
  fst (Put gzip_encode sha256_Sum s meta (mkReader b None) fs) = None.
Proof.
  destruct (object_paths s meta) as (D & x & HD & Hp & Ht).
  intros Hok Hs Hh Hfile.
  pose proof (MkdirAll_object s meta fs _ Hp) as Hsame.
  rewrite (os_Stat_eq _ _ _ Hp) in Hfile. cbn [fst] in Hfile.
  revert Hok Hsame. destruct fs as [t0 u w]. unfold put_io_ok.
  rewrite (Put_eq _ _ _ _ _ _ _ _ HD Hp Ht), (os_MkdirAll_eq _ _ _ _ HD).
  cbv zeta. cbn [r_data r_err root umask wfault] in *.
  destruct (tree.mkdir_all _ D t0) as [t1|] eqn:Em; [|done].
  destruct (mkdir_all_find _ _ _ _ Em) as (m & es & Hf & _).
  rewrite <- (put_entries_same _ _ _ _ Hf) at 1.
  rewrite (os_OpenFile_excl _ _ _ _ Hf _ _ _ _ _ _ Ht).
  rewrite (find_snoc D ((x +:+ ".gz") +:+ ".tmp") t1), Hf.
  destruct (es !! _); [done|]. cbn [fst snd root].
  case_bool_decide as Hw; [|done]. subst w. intros _ Hsame.
  rewrite !bool_decide_eq_false_2 by auto.
  rewrite Hsame.
  destruct (tree.find (D ++ [x +:+ ".gz"]) t0) as [[|dm des]|]; try done.
  by specialize (Hfile _ eq_refl).
Qed.

(** [Exists] answers false exactly when [os.Stat] reports that the final
    path does not exist. *)
Lemma Exists_false_iff (s : ContentStore) (meta : MetaObject) (fs : FS) :
  fst (Exists s meta fs) = false
  ↔ fst (os_Stat (object_path s meta) fs) = Err (SyscallError ENOENT).
Proof.
  destruct (object_paths s meta) as (D & x & _ & Hp & _).
  rewrite (Exists_eq _ _ _ _ Hp), (os_Stat_eq _ _ _ Hp). cbn [fst].
  destruct (tree.find _ (root fs)) as [|[]]; split; by try intros [=].
Qed.



(** C8: while the temporary file of an identifier exists, a [Put] for
    that identifier returns at once with the already-exists error of the
    exclusive creation; it reads nothing from its source and leaves the
    file system as it is. *)
Theorem put_in_progress (s : ContentStore) (meta : MetaObject) (r : Reader)
    (fs : FS) (info : FileInfo) :
  fst (os_Stat (object_path s meta +:+ ".tmp") fs) = Ok info →
  Put gzip_encode sha256_Sum s meta r fs = (Some (SyscallError EEXIST), fs).
Proof.
  destruct (object_paths s meta) as (D & x & HD & Hp & Ht).
  destruct fs as [t0 u w].
  rewrite (os_Stat_eq _ _ _ Ht), (Put_eq _ _ _ _ _ _ _ _ HD Hp Ht).
  cbn [fst root]. cbv zeta.
  destruct (tree.find (D ++ [_ +:+ ".tmp"]) t0) as [n|] eqn:Hf; [|done].
  intros _. rewrite find_snoc in Hf.
  destruct (tree.find D t0) as [[|m es]|] eqn:HfD; try done.
  rewrite (mkdir_all_existing _ _ _ _ _ HfD).
  rewrite find_snoc, HfD. by destruct (es !! _).
Qed.


(** ** More on [Put] *)

Lemma put_entries_put_entries (d : list string) (t : node) (m : Z)
    (es0 es1 es2 : gmap string node) :
  tree.find d t = Ok (Dir m es0) →
  tree.put_entries d es2 (tree.put_entries d es1 t) = tree.put_entries d es2 t.
Proof.
  intros Hd. unfold tree.put_entries at 1.
  by rewrite (modify_put_entries _ _ _ _ Hd).
Qed.

(** X11: a second [Put] of the same content under the same descriptor
    succeeds again and leaves the file system exactly as the first one
    left it. *)
Theorem Put_again (s : ContentStore) (meta : MetaObject) (r : Reader)
    (fs fs' : FS) :
  Put gzip_encode sha256_Sum s meta r fs = (None, fs') →
  Put gzip_encode sha256_Sum s meta r fs' = (None, fs').
Proof.
  destruct (object_paths s meta) as (D & x & HD & Hp & Ht).
  destruct fs as [t0 u w].
  rewrite (Put_eq _ _ _ _ _ _ _ _ HD Hp Ht). cbv zeta.
  destruct (tree.mkdir_all _ D t0) as [t1|] eqn:Em; [|done].
  destruct (mkdir_all_find _ _ _ _ Em) as (m & es & Hf & _).
  rewrite !(find_snoc D), Hf.
  destruct (es !! ((x +:+ ".gz") +:+ ".tmp")) eqn:Etn; [done|].
  destruct (r_err r) eqn:Er; [done|]. destruct w; [done|].
  case_bool_decide as Hs; [done|]. case_bool_decide as Hh; [done|].
  unfold create_mode. cbn [umask].
  set (F := File _ (gzip_encode gzip_BestCompression (r_data r))).
  rewrite (link_put_entries _ _ _ _ _ _ Hf).
  assert (Hne : (x +:+ ".gz") +:+ ".tmp" ≠ x +:+ ".gz") by apply tmp_name_ne.
  assert (∀ fs0 : FS,
    (@None error, mkFS (tree.put_entries D (<[x +:+ ".gz" := F]> es) t1) u None)
    = (None, fs0) →
    Put gzip_encode sha256_Sum s meta r fs0 = (None, fs0)) as Hok.
  { intros fs0 [= <-].
    pose proof (find_put_entries _ _ _ _ Hf (<[x +:+ ".gz" := F]> es)) as Hf'.
    rewrite (Put_eq _ _ _ _ _ _ _ _ HD Hp Ht). cbv zeta.
    rewrite (mkdir_all_existing _ _ _ _ _ Hf').
    rewrite !(find_snoc D), Hf', lookup_insert_ne, Etn, Er by done.
    rewrite !bool_decide_eq_false_2 by auto.
    rewrite lookup_insert_eq. unfold create_mode. cbn [umask]. fold F.
    rewrite (link_put_entries _ _ _ _ _ _ Hf').
    by rewrite insert_insert_eq, (put_entries_put_entries _ _ _ _ _ _ Hf). }
  destruct (es !! (x +:+ ".gz")) as [[]|]; by try apply Hok.
Qed.

(** X10: after a [Put] that reports no error, [Exists] answers true. *)
Theorem Put_ok_Exists (s : ContentStore) (meta : MetaObject) (r : Reader)
    (fs fs' : FS) :
  Put gzip_encode sha256_Sum s meta r fs = (None, fs') →
  fst (Exists s meta fs') = true.
Proof.
  intros (_ & _ & _ & Hobj)%Put_ok_object.
  apply object_bytes_find in Hobj as (p & perm & Hp & Hf).
  by rewrite (Exists_eq _ _ _ _ Hp), Hf.
Qed.




Lemma hex_byte_plain (v : byte) :
  plain (String (hex_digit (N.shiftr (Byte.to_N v) 4))
           (String (hex_digit (N.land (Byte.to_N v) 15)) "")) = true.
Proof. by destruct v. Qed.

Lemma hex_EncodeToString_shape (b : list byte) :
  String.length (hex_EncodeToString b) = (2 * length b)%nat
  ∧ plain (hex_EncodeToString b) = true.
Proof.
  induction b as [|v b [IHl IHp]]; [done|]. split.
  - cbn [hex_EncodeToString String.length length]. rewrite IHl. lia.
  - pose proof (hex_byte_plain v) as Hv. cbn [hex_EncodeToString plain] in *.
    rewrite IHp. by rewrite !andb_true_r in *.
Qed.

(** X9: [Put] only ever publishes under a hexadecimal identifier: when it
    reports no error the identifier has two characters for every byte of
    the digest, none of them a separator or a dot. *)
Theorem Put_ok_Oid_hex (s : ContentStore) (meta : MetaObject) (r : Reader)
    (fs fs' : FS) :
  Put gzip_encode sha256_Sum s meta r fs = (None, fs') →
  String.length (Oid meta) = (2 * length (sha256_Sum (r_data r)))%nat
  ∧ plain (Oid meta) = true.
Proof.
  intros (_ & _ & -> & _)%Put_ok_object. apply hex_EncodeToString_shape.
Qed.

(** ** More on [Get] *)

(** X22: [Get] leaves the file system as it is, and it returns no handle
    only together with an error. *)
Theorem Get_reads_only (s : ContentStore) (meta : MetaObject) (k : Z) (fs : FS) :
  snd (Get gzip_decode s meta k fs) = fs
  ∧ (fst (fst (Get gzip_decode s meta k fs)) = None →
     snd (fst (Get gzip_decode s meta k fs)) ≠ None).
Proof.
  destruct (object_paths s meta) as (D & x & _ & Hp & _).
  unfold Get. fold (object_path s meta). unfold mbind, M_bind.
  rewrite (os_Open_eq _ _ _ Hp).
  destruct (tree.find _ (root fs)) as [n|]; [|done].
  destruct (gzip_NewReader _ _) as [z|]; [|done].
  destruct (0 <? k); [|done].
  by destruct (io_CopyN_Discard z k) as [[? ?] ?].
Qed.

(** X19: when [Exists] answers false, [Get] returns no handle and the
    not-exist error, for every offset. *)
Theorem Get_absent (s : ContentStore) (meta : MetaObject) (k : Z) (fs : FS) :
  fst (Exists s meta fs) = false →
  Get gzip_decode s meta k fs = ((None, Some (SyscallError ENOENT)), fs)
  ∧ os_IsNotExist (snd (fst (Get gzip_decode s meta k fs))) = true.
Proof.
  destruct (object_paths s meta) as (D & x & _ & Hp & _).
  rewrite (Exists_eq _ _ _ _ Hp). cbn [fst].
  unfold Get. fold (object_path s meta). unfold mbind, M_bind.
  rewrite (os_Open_eq _ _ _ Hp).
  by destruct (tree.find _ (root fs)) as [|[]].
Qed.

(** X20: [Get] on a file that the decompressor does not accept as gzip
    returns no handle and the decompressor's error, for every offset. *)
Theorem Get_not_gzip (s : ContentStore) (meta : MetaObject) (k : Z) (fs : FS)
    (c : list byte) (e : error) :
  object_bytes s meta fs = Some c →
  gzip_decode c = Err e →
  Get gzip_decode s meta k fs = ((None, Some e), fs).
Proof.
  intros (p & perm & Hp & Hf)%object_bytes_find Hz.
  unfold Get. fold (object_path s meta). unfold mbind, M_bind.
  rewrite (os_Open_eq _ _ _ Hp), Hf.
  unfold gzip_NewReader. cbn [f_closed f_node]. by rewrite Hz.
Qed.

(** X21: [Get] does not check what it serves.  On an object whose
    compressed data is damaged after the header, [Get] from an offset
    within the data that can still be decoded succeeds; the damage shows
    only when the stream is read to its end, after that data has been
    delivered.  From an offset beyond it, [Get] returns the decoder's
    error. *)
Theorem Get_damaged (s : ContentStore) (meta : MetaObject) (k : Z) (fs : FS)
    (c b : list byte) (en : gz_end) :
  object_bytes s meta fs = Some c →
  gzip_decode c = Ok (b, en) →
  end_error en ≠ io_EOF →
  (0 ≤ k ≤ Z.of_nat (length b) →
     ∃ h, Get gzip_decode s meta k fs = ((Some h, None), fs)
          ∧ read_all h = Ok (drop (Z.to_nat k) b, Some (end_error en)))
  ∧ (Z.of_nat (length b) < k →
     snd (fst (Get gzip_decode s meta k fs)) = Some (end_error en)).
Proof.
  intros Hobj Hz Hen.
  destruct (Get_stored s meta fs c b en k Hobj Hz) as (file & _ & HG).
  rewrite HG. unfold io_CopyN_Discard. cbn [z_rest z_end z_err].
  assert (∀ z, z_end z = en →
            read_all (mkBoth file z) = Ok (z_rest z, Some (end_error en))) as Hread.
  { intros z Hz'. unfold read_all. rewrite ioutil_ReadAll_spec by (cbn; lia).
    cbn [g]. rewrite Hz'. by rewrite bool_decide_eq_false_2. }
  split.
  - intros Hk. destruct (0 <? k) eqn:E0.
    + apply Z.ltb_lt in E0.
      rewrite (proj2 (Z.leb_gt k 0)), (proj2 (Z.leb_le k _)) by lia.
      eexists. split; [done|]. by rewrite Hread.
    + apply Z.ltb_ge in E0. replace k with 0 by lia.
      eexists. split; [done|]. by rewrite Hread.
  - intros Hk.
    rewrite (proj2 (Z.ltb_lt 0 k)), (proj2 (Z.leb_gt k 0)),
      (proj2 (Z.leb_gt k _)) by lia.
    done.
Qed.



(** X7: [Put] accepts valid content.  When the directory of the object can
    be made, its temporary file created and the device takes the data,
    the descriptor is right and no directory sits at the final path (a
    file may: it is replaced), [Put] reports no error. *)
Theorem Put_valid_succeeds (s : ContentStore) (meta : MetaObject)
    (b : list byte) (fs : FS) :
  put_io_ok s meta fs = true →
  Size meta = Z.of_nat (length b) →
  Oid meta = hex_EncodeToString (sha256_Sum b) →
  (∀ info, fst (os_Stat (object_path s meta) fs) = Ok info →
           fi_IsDir info = false) →
  fst (Put gzip_encode sha256_Sum s meta (mkReader b None) fs) = None.
Proof. apply Put_succeeds. Qed.


(** X12: the errors of [Put] from a source that does not fail are of three
    kinds: a failed system call; the size error, only when the length of
    the content is not the size of the descriptor; the hash error, only
    when the length is right and the hexadecimal hash is not the
    identifier. *)
Theorem Put_errors_classified (s : ContentStore) (meta : MetaObject)
    (b : list byte) (fs fs' : FS) (e : error) :
  Put gzip_encode sha256_Sum s meta (mkReader b None) fs = (Some e, fs') →
  (∃ n, e = SyscallError n)
  ∨ (e = errSizeMismatch ∧ Z.of_nat (length b) ≠ Size meta)
  ∨ (e = errHashMismatch ∧ Z.of_nat (length b) = Size meta
     ∧ hex_EncodeToString (sha256_Sum b) ≠ Oid meta).
Proof. apply Put_error_kinds. Qed.

End StoreFacts.

(** ** The sharding function *)

Lemma plain_name (e : string) : plain e = true → e ≠ "" → is_name e = true.
Proof.
  intros Hp He. unfold is_name.
  rewrite !bool_decide_eq_false_2; [done| |]; intros H;
    [|destruct H]; by subst.
Qed.

Lemma fold_clean_names (root : bool) (l : list string) : ∀ acc,
  Forall (λ e, is_name e = true) l →
  fold_left (filepath.clean_step root) l acc = rev l ++ acc.
Proof.
  induction l as [|e l IH]; intros acc Hl; simpl; [done|].
  inversion Hl as [|? ? He Hl']; subst. rewrite IH by done.
  rewrite <- app_assoc. f_equal.
  unfold is_name in He. apply andb_prop in He as [H1 H2].
  apply negb_true_iff in H1, H2. unfold filepath.clean_step.
  by rewrite H1, H2.
Qed.

(** The three slices of a key of five bytes or more make up the key. *)
Lemma slices_cover (key : string) :
  (5 ≤ String.length key)%nat →
  key = slice 0 2 key +:+ slice 2 4 key +:+ slice 4 (String.length key) key.
Proof.
  intros Hl. unfold slice.
  rewrite (substring_split key 2) at 1 by lia. f_equal.
  set (r := String.substring 2 (String.length key - 2) key).
  assert (String.length r = (String.length key - 2)%nat) as Hr
    by (apply length_substring_le; lia).
  rewrite (substring_split r 2) by lia. rewrite Hr. unfold r.
  rewrite !substring_shift by lia.
  by replace (String.length key - 2 - 2)%nat with (String.length key - 4)%nat by lia.
Qed.

(** A separator-joined list of names is clean already. *)
Lemma Clean_names (l : list string) :
  l ≠ [] →
  Forall (λ e, is_name e = true) l → Forall (λ e, nosep e = true) l →
  filepath.Clean (filepath.join_sep l) = filepath.join_sep l.
Proof.
  intros Hl Hn Hs. pose proof (split_join l Hl Hs) as Hsplit.
  unfold filepath.Clean. rewrite Hsplit.
  assert (filepath.join_sep l ≠ "") as Hne.
  { intros E. rewrite E in Hsplit. simpl in Hsplit. subst l.
    by inversion Hn. }
  rewrite bool_decide_eq_false_2 by done.
  assert (filepath.rooted (filepath.join_sep l) = false) as ->.
  { destruct l as [|x l]; [done|].
    inversion Hn as [|? ? Hx _]; inversion Hs as [|? ? Hx' _]; subst.
    destruct x as [|c x]; [done|]. simpl in Hx'.
    apply andb_prop in Hx' as [Hc _]. apply negb_true_iff in Hc.
    by destruct l. }
  rewrite fold_clean_names by done.
  rewrite app_nil_r, rev_involutive. by destruct l.
Qed.

(** C2: the sharding function is a function of the identifier alone; an
    identifier shorter than 5 bytes is returned as it is; a longer one
    gives the path joined, with [filepath.Join], from its first two bytes,
    its next two bytes and the rest (three pieces that make up the
    identifier), which for an identifier without
    separators and dots (a hexadecimal one) is these three parts with a
    separator between them.  So [abc] gives [abc] and [abcdef1234] gives
    [ab/cd/ef1234]. *)
Theorem transformKey_shards (key : string) :
  ((String.length key < 5)%nat → transformKey key = key)
  ∧ ((5 ≤ String.length key)%nat →
     transformKey key
     = filepath.Join [slice 0 2 key; slice 2 4 key;
                      slice 4 (String.length key) key]
     ∧ key = slice 0 2 key +:+ slice 2 4 key +:+ slice 4 (String.length key) key
     ∧ (plain key = true →
        transformKey key
        = slice 0 2 key +:+ "/" +:+ slice 2 4 key +:+ "/"
          +:+ slice 4 (String.length key) key))
  ∧ transformKey "abc" = "abc"
  ∧ transformKey "abcdef1234" = "ab/cd/ef1234".
Proof.
  split; [|split; [|done]].
  - intros Hl. unfold transformKey. by rewrite (proj2 (Nat.ltb_lt _ _)).
  - intros Hl. unfold transformKey. rewrite (proj2 (Nat.ltb_ge _ _)) by done.
    split; [done|]. split; [by apply slices_cover|]. intros Hp. unfold slice.
    set (a := String.substring 0 (2 - 0) key).
    set (b := String.substring 2 (4 - 2) key).
    set (c := String.substring 4 (String.length key - 4) key).
    assert (String.length a = 2%nat) as Ha by (apply length_substring_le; lia).
    assert (String.length b = 2%nat) as Hb by (apply length_substring_le; lia).
    assert (String.length c = (String.length key - 4)%nat) as Hc
      by (apply length_substring_le; lia).
    assert (∀ e, (0 < String.length e)%nat → e ≠ "") as Hne
      by (intros e ? ->; simpl in *; lia).
    assert (plain a = true ∧ plain b = true ∧ plain c = true) as (Pa & Pb & Pc)
      by (repeat split; by apply plain_substring).
    cbn [filepath.Join]. rewrite bool_decide_eq_false_2 by (apply Hne; lia).
    apply (Clean_names [a; b; c]); [done| |].
    + repeat constructor; apply plain_name; try done; apply Hne; lia.
    + repeat constructor; by apply plain_nosep.
Qed.

Lemma transformKey_shards_witness :
  transformKey "ab" = "ab"
  ∧ transformKey "4d7a214614ab2935c943f9e0ff69d22eadbb8f32b1258daaa5e2ca24d17e2393"
    = "4d/7a/214614ab2935c943f9e0ff69d22eadbb8f32b1258daaa5e2ca24d17e2393".
Proof.
  split.
  - apply (proj1 (transformKey_shards "ab")). simpl. lia.
  - refine (proj2 (proj2 (proj1 (proj2 (transformKey_shards _)) _)) _).
    + simpl. lia.
    + reflexivity.
Defined.

(** ** Closing a handle *)

(** C7 (as the code has it): closing the handle releases both resources,
    the decompressor first and the file second, whatever the first release
    reports; the result is the error of the file when closing the file
    fails, and what closing the decompressor reported otherwise. *)
Theorem bothCloser_Close_spec (b : bothCloser) (log : list release) :
  let '(err, (b', log')) := bothCloser_Close (b, log) in
  log' = log ++ [ClosedGzip; ClosedFile]
  ∧ f_closed (f b') = true
  ∧ err = match fst (os_File_Close (f b)) with
          | Some e => Some e
          | None => gzip_Reader_Close (g b)
          end.
Proof.
  unfold bothCloser_Close, mbind, H_bind, g_Close, f_Close, os_File_Close.
  cbn [f g]. destruct (f_closed (f b)) eqn:E; cbn;
    by rewrite <- app_assoc.
Qed.

(** With both releases failing, the caller gets the error of the file,
    the second failure, and not the one of the decompressor.  (The handle
    is one that has read damaged data and has been closed once: closing it
    again, the decompressor reports its error again and the file reports
    that it is closed.) *)
Lemma bothCloser_Close_both_fail :
  gzip_Reader_Close (g demo.spent_handle) = Some flate_CorruptInputError
  ∧ fst (os_File_Close (f demo.spent_handle)) = Some os_ErrClosed
  ∧ fst (bothCloser_Close (demo.spent_handle, [])) = Some os_ErrClosed
  ∧ fst (bothCloser_Close (demo.spent_handle, []))
    ≠ gzip_Reader_Close (g demo.spent_handle).
Proof. by vm_compute. Qed.

(** ** Making a store *)

(** C9 (as the code has it): [NewContentStore] makes the directory and
    every missing directory above it with mode 0750 less the umask (all
    access for the owner, reading and searching for the group, nothing for
    others), leaves directories that exist as they are, and returns the
    store; doing it again changes nothing and succeeds again.  When the
    directory cannot be made, the error of the system call is returned
    with no store, and the file system is as it was. *)
Theorem NewContentStore_spec (base : string) (fs : FS) :
  (∃ fs' p,
     NewContentStore base fs = ((Some (mkStore base), None), fs')
     ∧ resolve base = Ok p
     ∧ (∀ q1 q2, p = q1 ++ q2 →
        ∃ m es, tree.find q1 (root fs') = Ok (Dir m es)
                ∧ ((∃ es0, tree.find q1 (root fs) = Ok (Dir m es0))
                   ∨ (tree.find q1 (root fs) = Err ENOENT
                      ∧ m = Z.land (oct 7 5 0) (Z.lnot (umask fs)))))
     ∧ NewContentStore base fs' = ((Some (mkStore base), None), fs'))
  ∨ (∃ n,
       os_MkdirAll base (oct 7 5 0) fs = (Some (SyscallError n), fs)
       ∧ NewContentStore base fs = ((None, Some (SyscallError n)), fs)).
Proof.
  unfold NewContentStore, mbind, M_bind, mret, M_ret.
  destruct (resolve base) as [p|n] eqn:Hp.
  - rewrite (os_MkdirAll_eq _ _ _ _ Hp).
    destruct (tree.mkdir_all _ p (root fs)) as [t|n] eqn:Em; [left|right; eauto].
    exists (mkFS t (umask fs) (wfault fs)), p. split; [done|]. split; [done|].
    split.
    + intros q1 q2 ->. apply (mkdir_all_prefix _ _ _ _ _ Em).
    + rewrite (os_MkdirAll_eq _ _ _ _ Hp). cbn [root umask wfault].
      destruct (mkdir_all_find _ _ _ _ Em) as (m & es & Hf & _).
      by rewrite (mkdir_all_existing _ _ _ _ _ Hf).
  - right. exists n. unfold os_MkdirAll, get_fs, mbind, M_bind, mret, M_ret.
    by rewrite Hp.
Qed.

Lemma NewContentStore_spec_witness :
  ∃ fs' m es,
    NewContentStore "data/lfs" demo.empty_disk
    = ((Some (mkStore "data/lfs"), None), fs')
    ∧ tree.find ["data"] (root fs') = Ok (Dir m es)
    ∧ m = oct 7 5 0.
Proof.
  destruct (NewContentStore_spec "data/lfs" demo.empty_disk)
    as [(fs' & p & HN & Hp & Hdirs & _)|(n & Hm & _)].
  - injection Hp as <-.
    destruct (Hdirs ["data"] ["lfs"] eq_refl) as (m & es & Hf & Hor).
    exists fs', m, es. split; [exact HN|]. split; [exact Hf|].
    destruct Hor as [[es0 H0]|[_ ->]]; [discriminate H0|reflexivity].
  - discriminate Hm.
Defined.

(** The directory made on a disk with no umask has mode 0750: the group
    may read and search it, so access is not the owner's alone. *)
Lemma NewContentStore_group_access :
  let '(r, fs') := NewContentStore "data" demo.empty_disk in
  r = (Some (mkStore "data"), None)
  ∧ fst (os_Stat "data" demo.empty_disk) = Err (SyscallError ENOENT)
  ∧ fst (os_Stat "data" fs') = Ok (mkInfo true (oct 7 5 0) 0)
  ∧ Z.land (oct 7 5 0) (oct 0 7 7) = oct 0 5 0
  ∧ Z.land (oct 7 5 0) (oct 0 7 7) ≠ 0.
Proof. by vm_compute. Qed.

(** ** Presence of an object *)

(** C6 (what the code does): with a regular file in the way of the
    object's directory, [os.Stat] fails with an error that is not
    "not exist" and [Exists] answers true, although nothing is at the
    final path and [Get] finds no object. *)
Theorem Exists_true_on_stat_error :
  let meta := mkMeta "abcdef1234" 10 in
  object_path demo.store meta = "data/ab/cd/ef1234.gz"
  ∧ fst (os_Stat (object_path demo.store meta) demo.blocked_disk)
    = Err (SyscallError ENOTDIR)
  ∧ object_bytes demo.store meta demo.blocked_disk = None
  ∧ fst (Get demo.decode demo.store meta 0 demo.blocked_disk)
    = (None, Some (SyscallError ENOTDIR))
  ∧ fst (Exists demo.store meta demo.blocked_disk) = true.
Proof. by vm_compute. Qed.

(** ** The store on a concrete disk *)

Lemma demo_decode_encode (b : list byte) :
  demo.decode (demo.encode gzip_BestCompression b) = Ok (b, GzOK).
Proof. reflexivity. Qed.

Lemma put_get_roundtrip_witness :
  ∃ h, Get demo.decode demo.store (demo.describe demo.hello) 0 demo.stored_disk
       = ((Some h, None), demo.stored_disk)
       ∧ read_all h = Ok (demo.hello, None).
Proof.
  apply (put_get_roundtrip demo.encode demo.decode demo.digest
           demo_decode_encode demo.store demo.hello demo.empty_disk).
  vm_compute. reflexivity.
Defined.

Lemma get_from_offset_witness :
  ∃ h, Get demo.decode demo.store (demo.describe demo.hello) 6 demo.stored_disk
       = ((Some h, None), demo.stored_disk)
       ∧ read_all h = Ok (demo.bytes "world", None).
Proof.
  refine (proj1 (get_from_offset demo.decode demo.store
                   (demo.describe demo.hello) demo.stored_disk
                   (demo.encode gzip_BestCompression demo.hello) demo.hello 6
                   _ _) _).
  - vm_compute. reflexivity.
  - reflexivity.
  - vm_compute. split; discriminate.
Defined.

Lemma get_past_end_witness :
  ∃ h, Get demo.decode demo.store (demo.describe demo.hello) 12 demo.stored_disk
       = ((Some h, Some io_EOF), demo.stored_disk)
       ∧ f_closed (f h) = false
       ∧ (∀ n, fst (bothCloser_Read n (h, [])) = ([], Some io_EOF))
       ∧ fst (bothCloser_Close (h, [])) = None.
Proof.
  refine (get_past_end demo.decode demo.store (demo.describe demo.hello)
            demo.stored_disk (demo.encode gzip_BestCompression demo.hello)
            demo.hello 12 _ _ _).
  - vm_compute. reflexivity.
  - reflexivity.
  - vm_compute. reflexivity.
Defined.



Lemma put_in_progress_witness :
  Put demo.encode demo.digest demo.store (demo.describe demo.hello)
    (mkReader demo.hello None) demo.busy_disk
  = (Some (SyscallError EEXIST), demo.busy_disk).
Proof.
  apply (put_in_progress demo.encode demo.digest demo.store
           (demo.describe demo.hello) (mkReader demo.hello None)
           demo.busy_disk (mkInfo false (oct 6 4 0) 0)).
  vm_compute. reflexivity.
Defined.

(** ** More on the sharding function *)

Lemma plain_app (s t : string) : plain (s +:+ t) = plain s && plain t.
Proof.
  induction s as [|c s IH]; simpl; [done|]. rewrite IH.
  by rewrite andb_assoc.
Qed.

Lemma append_inj_length (a1 a2 r1 r2 : string) :
  String.length a1 = String.length a2 →
  a1 +:+ r1 = a2 +:+ r2 → a1 = a2 ∧ r1 = r2.
Proof.
  revert a2. induction a1 as [|c a1 IH]; intros [|c2 a2] Hl E; simpl in *;
    try done.
  injection E as -> E. injection Hl as Hl.
  by destruct (IH _ Hl E) as [-> ->].
Qed.

(** The shape of a sharded key without separators and dots. *)
Lemma transformKey_plain_long (key : string) :
  (5 ≤ String.length key)%nat → plain key = true →
  transformKey key
  = slice 0 2 key +:+ "/" +:+ slice 2 4 key +:+ "/"
    +:+ slice 4 (String.length key) key.
Proof.
  intros Hl Hp. unfold transformKey. rewrite (proj2 (Nat.ltb_ge _ _)) by done.
  unfold slice.
  set (a := String.substring 0 (2 - 0) key).
  set (b := String.substring 2 (4 - 2) key).
  set (c := String.substring 4 (String.length key - 4) key).
  assert (String.length a = 2%nat) as Ha by (apply length_substring_le; lia).
  assert (String.length b = 2%nat) as Hb by (apply length_substring_le; lia).
  assert (String.length c = (String.length key - 4)%nat) as Hc
    by (apply length_substring_le; lia).
  assert (∀ e, (0 < String.length e)%nat → e ≠ "") as Hne
    by (intros e ? ->; simpl in *; lia).
  assert (plain a = true ∧ plain b = true ∧ plain c = true) as (Pa & Pb & Pc)
    by (repeat split; by apply plain_substring).
  cbn [filepath.Join]. rewrite bool_decide_eq_false_2 by (apply Hne; lia).
  apply (Clean_names [a; b; c]); [done| |].
  - repeat constructor; apply plain_name; try done; apply Hne; lia.
  - repeat constructor; by apply plain_nosep.
Qed.

(** X1: on identifiers without separators and dots (hexadecimal ones) the
    sharding function is injective: two different identifiers never share
    a sharded path. *)
Theorem transformKey_inj_plain (k1 k2 : string) :
  plain k1 = true → plain k2 = true → k1 ≠ k2 →
  transformKey k1 ≠ transformKey k2.
Proof.
  intros P1 P2 Hne.
  assert (∀ k k', (String.length k < 5)%nat → (5 ≤ String.length k')%nat →
            plain k = true → plain k' = true →
            transformKey k ≠ transformKey k') as Hmixed.
  { intros k k' Hk Hk' Pk Pk' E.
    rewrite (transformKey_plain_long k' Hk' Pk') in E.
    unfold transformKey in E. rewrite (proj2 (Nat.ltb_lt _ _)) in E by done.
    rewrite E in Pk. rewrite plain_app in Pk.
    apply andb_prop in Pk as [_ Pk]. done. }
  destruct (Nat.lt_ge_cases (String.length k1) 5) as [H1|H1];
    destruct (Nat.lt_ge_cases (String.length k2) 5) as [H2|H2].
  - unfold transformKey. by rewrite !(proj2 (Nat.ltb_lt _ _)).
  - by apply Hmixed.
  - intros E. by destruct (Hmixed k2 k1).
  - rewrite !transformKey_plain_long by done. intros E. apply Hne.
    apply append_inj_length in E as [Ea E];
      [|unfold slice; rewrite !length_substring_le; lia].
    injection E as E.
    apply append_inj_length in E as [Eb E];
      [|unfold slice; rewrite !length_substring_le; lia].
    injection E as Ec.
    rewrite (slices_cover k1), (slices_cover k2) by done.
    by rewrite Ea, Eb, Ec.
Qed.

Lemma transformKey_inj_plain_witness :
  transformKey "68656c6c6f" ≠ transformKey "68656c6c6e"
  ∧ transformKey "6865" ≠ transformKey "68656".
Proof.
  split; apply transformKey_inj_plain; reflexivity || discriminate.
Defined.

(** ** More on closing a handle *)

(** X25: closing a handle a second time is an error: the file reports that
    it is closed already, whatever the decompressor says; the two
    resources are released again in the same order. *)
Theorem bothCloser_Close_twice (b : bothCloser) (log : list release) :
  let st1 := snd (bothCloser_Close (b, log)) in
  let '(err2, (_, log2)) := bothCloser_Close st1 in
  err2 = Some os_ErrClosed
  ∧ log2 = log ++ [ClosedGzip; ClosedFile; ClosedGzip; ClosedFile].
Proof.
  unfold bothCloser_Close, mbind, H_bind, g_Close, f_Close, os_File_Close.
  cbn [f g]. destruct (f_closed (f b)) eqn:E; cbn; rewrite ?E; cbn;
    by rewrite <- !app_assoc.
Qed.

(** ** More on making a store *)





(** ** Where objects are *)

Lemma split_app_sep_any (s t : string) :
  filepath.split (s +:+ String "/" t) = filepath.split s ++ filepath.split t.
Proof.
  induction s as [|c s IH]; simpl; [done|].
  destruct (is_sep c); [by rewrite IH|].
  rewrite IH. pose proof (split_not_nil s).
  by destruct (filepath.split s).
Qed.

(** The elements of a cleaned path whose last element is a name: the same
    last element, and a front that resolves as before. *)
Lemma split_Clean_name (q : string) (l : list string) (x : string) :
  filepath.split q = l ++ [x] → is_name x = true →
  ∃ l', filepath.split (filepath.Clean q) = l' ++ [x]
        ∧ fold_left walk_step l' [] = fold_left walk_step l [].
Proof.
  intros E Hx. unfold filepath.Clean.
  case_bool_decide as Hq.
  { subst q. simpl in E. destruct l as [|? l]; [|by destruct l].
    injection E as <-. done. }
  rewrite E, fold_left_app. cbn [fold_left].
  set (L0 := fold_left (filepath.clean_step (filepath.rooted q)) l []).
  assert (filepath.clean_step (filepath.rooted q) L0 x = x :: L0) as ->.
  { unfold is_name in Hx. apply andb_prop in Hx as [H1 H2].
    apply negb_true_iff in H1, H2. unfold filepath.clean_step.
    by rewrite H1, H2. }
  cbn [rev].
  destruct (clean_walk (filepath.rooted q) l [] 0%nat) as (k & EL & Hk & HW);
    [done|done|].
  simpl in EL. fold L0 in EL.
  set (W := fold_left walk_step l []) in *.
  assert (Hns : Forall (λ e, nosep e = true) (rev L0 ++ [x])).
  { pose proof (split_Forall_nosep q) as Hq'. rewrite E in Hq'.
    apply Forall_app in Hq' as [Hl Hx'].
    apply Forall_app. split; [|done].
    apply Forall_rev. by apply clean_stack_nosep. }
  assert (fold_left walk_step (rev L0) [] = W) as Hfold.
  { rewrite EL, rev_app_distr, rev_replicate, fold_left_app,
      fold_walk_dotdots, fold_walk_names by by apply Forall_rev.
    by rewrite rev_involutive, app_nil_r. }
  destruct (rev L0 ++ [x]) as [|y l'] eqn:El.
  { by destruct (rev L0). }
  rewrite <- El in *. clear y l' El.
  assert (rev L0 ++ [x] ≠ []) as Hnil by by destruct (rev L0).
  destruct (filepath.rooted q).
  - exists ("" :: rev L0). split.
    + by rewrite split_sep_cons, split_join.
    + simpl. change (walk_step [] "") with (@nil string). done.
  - exists (rev L0). split; [|done]. simpl. by rewrite split_join.
Qed.

Lemma resolve_Clean_suffix (q sfx : string) (l : list string) (x : string) :
  filepath.split q = l ++ [x] → is_name x = true →
  nosep sfx = true → (3 ≤ String.length sfx)%nat →
  resolve (filepath.Clean q +:+ sfx)
  = Ok (rev (fold_left walk_step l []) ++ [x +:+ sfx]).
Proof.
  intros E Hx Hs Hl.
  destruct (split_Clean_name q l x E Hx) as (l' & E' & <-).
  by apply resolve_suffix.
Qed.

Lemma append_inj_r (s1 s2 t : string) : s1 +:+ t = s2 +:+ t → s1 = s2.
Proof.
  intros E. apply append_inj_length in E as [? _]; [done|].
  apply (f_equal String.length) in E. rewrite !length_append in E. lia.
Qed.

(** The elements of the sharded key of a hexadecimal identifier. *)
Lemma split_transformKey (oid : string) :
  plain oid = true → oid ≠ "" →
  ∃ l x, filepath.split (transformKey oid) = l ++ [x]
         ∧ is_name x = true
         ∧ Forall (λ e, is_name e = true) l
         ∧ l ++ [x +:+ ".gz"] = shard_elems oid.
Proof.
  intros Hp Hne. unfold shard_elems.
  destruct (String.length oid <? 5)%nat eqn:Hl.
  - exists [], oid. unfold transformKey. rewrite Hl.
    rewrite split_nosep by by apply plain_nosep.
    repeat split; [by apply plain_name|done].
  - apply Nat.ltb_ge in Hl.
    rewrite transformKey_plain_long by done.
    set (a := slice 0 2 oid). set (b := slice 2 4 oid).
    set (c := slice 4 (String.length oid) oid).
    assert (∀ e, (0 < String.length e)%nat → e ≠ "") as Hnil
      by (intros e ? ->; simpl in *; lia).
    assert (plain a = true ∧ plain b = true ∧ plain c = true) as (Pa & Pb & Pc)
      by (repeat split; by apply plain_substring).
    assert (a ≠ "" ∧ b ≠ "" ∧ c ≠ "") as (Na & Nb & Nc).
    { repeat split; apply Hnil; unfold a, b, c, slice;
        rewrite length_substring_le; lia. }
    exists [a; b], c.
    change (a +:+ "/" +:+ b +:+ "/" +:+ c) with (filepath.join_sep [a; b; c]).
    rewrite split_join; [|done|repeat constructor; by apply plain_nosep].
    repeat split; [by apply plain_name|repeat constructor; by apply plain_name].
Qed.

Lemma object_elems (s : ContentStore) (meta : MetaObject) :
  plain (Oid meta) = true → Oid meta ≠ "" →
  resolve (object_path s meta)
  = Ok (base_elems s ++ shard_elems (Oid meta)).
Proof.
  intros Hp Hne.
  destruct (split_transformKey _ Hp Hne) as (l & x & E & Hx & Hl & <-).
  assert (transformKey (Oid meta) ≠ "") as Htk.
  { intros E0. rewrite E0 in E. simpl in E.
    destruct l as [|? l]; [|by destruct l]. by injection E as <-. }
  unfold object_path, base_elems. cbn [filepath.Join].
  case_bool_decide as Hb.
  - rewrite Hb. rewrite bool_decide_eq_false_2 by done.
    cbn [filepath.join_sep filepath.split fold_left rev].
    change (walk_step [] "") with (@nil string). cbn [rev app].
    rewrite (resolve_Clean_suffix _ _ l x) by done.
    by rewrite fold_walk_names, app_nil_r, rev_involutive.
  - change (filepath.join_sep [basePath s; transformKey (Oid meta)])
      with (basePath s +:+ String "/" (transformKey (Oid meta))).
    rewrite (resolve_Clean_suffix _ _ (filepath.split (basePath s) ++ l) x);
      [|by rewrite split_app_sep_any, E, app_assoc|done..].
    rewrite fold_left_app, fold_walk_names by done.
    by rewrite rev_app_distr, rev_involutive, <- app_assoc.
Qed.

(** X2: the final path of an object with a hexadecimal identifier: the
    elements of the base path, then the file named after the identifier
    (identifier shorter than 5), or the two shard directories and the file
    named after the rest of it; [.gz] is appended to the file name. *)
Theorem object_layout (s : ContentStore) (meta : MetaObject) :
  plain (Oid meta) = true → Oid meta ≠ "" →
  resolve (object_path s meta)
  = Ok (base_elems s ++ shard_elems (Oid meta)).
Proof. apply object_elems. Qed.

Lemma object_layout_witness :
  resolve (object_path (mkStore "/srv/lfs/")
             (mkMeta "4d7a214614ab2935c943f9e0ff69d22eadbb8f32b1258daaa5e2ca24d17e2393" 11))
  = Ok ["srv"; "lfs"; "4d"; "7a";
        "214614ab2935c943f9e0ff69d22eadbb8f32b1258daaa5e2ca24d17e2393.gz"].
Proof.
  apply (object_layout (mkStore "/srv/lfs/")
           (mkMeta "4d7a214614ab2935c943f9e0ff69d22eadbb8f32b1258daaa5e2ca24d17e2393" 11));
    reflexivity || discriminate.
Defined.

Lemma shard_elems_inj (o1 o2 : string) :
  plain o1 = true → plain o2 = true →
  shard_elems o1 = shard_elems o2 → o1 = o2.
Proof.
  intros P1 P2. unfold shard_elems.
  destruct (String.length o1 <? 5)%nat eqn:H1;
    destruct (String.length o2 <? 5)%nat eqn:H2; try done.
  - intros [= E]. by apply append_inj_r in E.
  - apply Nat.ltb_ge in H1, H2. intros [= Ea Eb Ec%append_inj_r].
    rewrite (slices_cover o1), (slices_cover o2) by done.
    by rewrite Ea, Eb, Ec.
Qed.

Lemma object_paths_differ (s : ContentStore) (m1 m2 : MetaObject) :
  plain (Oid m1) = true → Oid m1 ≠ "" →
  plain (Oid m2) = true → Oid m2 ≠ "" →
  Oid m1 ≠ Oid m2 →
  resolve (object_path s m1) ≠ resolve (object_path s m2).
Proof.
  intros P1 N1 P2 N2 Hne.
  rewrite !object_elems by done. intros [= E%app_inv_head].
  by apply Hne, shard_elems_inj.
Qed.

(** X3: two different hexadecimal identifiers have different final paths
    in a store. *)
Theorem object_path_inj (s : ContentStore) (m1 m2 : MetaObject) :
  plain (Oid m1) = true → Oid m1 ≠ "" →
  plain (Oid m2) = true → Oid m2 ≠ "" →
  Oid m1 ≠ Oid m2 →
  resolve (object_path s m1) ≠ resolve (object_path s m2).
Proof. apply object_paths_differ. Qed.

(** ** What [Put] leaves alone *)

(** [mkdir_all] makes directories only: the regular files of the tree
    are the same before and after. *)
Lemma mkdir_all_files (mode : Z) (p : list string) : ∀ t t' q perm c,
  tree.mkdir_all mode p t = Ok t' →
  tree.find q t' = Ok (File perm c) ↔ tree.find q t = Ok (File perm c).
Proof.
  induction p as [|x p IH]; intros t t' q perm c Hm.
  - destruct t; [done|]. by injection Hm as <-.
  - destruct t as [|m es]; [done|]. simpl in Hm.
    destruct (tree.mkdir_all mode p _) as [n'|] eqn:En; [|done].
    injection Hm as <-. destruct q as [|y q]; [done|]. simpl.
    destruct (decide (x = y)) as [->|Hne].
    + rewrite lookup_insert_eq, (IH _ _ q perm c En).
      destruct (es !! y); [done|]. simpl. by destruct q.
    + by rewrite lookup_insert_ne.
Qed.

(** Setting one entry of a directory to a regular file, where no
    directory was: the regular files elsewhere stay as they are. *)
Lemma set_entry_files (d : list string) (x : string) (pf : Z) (cf : list byte) :
  ∀ t t' q perm c,
  tree.modify_dir d (λ es, Ok (<[x := File pf cf]> es)) t = Ok t' →
  (∀ dm des, tree.find (d ++ [x]) t ≠ Ok (Dir dm des)) →
  q ≠ d ++ [x] →
  tree.find q t' = Ok (File perm c) ↔ tree.find q t = Ok (File perm c).
Proof.
  induction d as [|a d IH]; intros t t' q perm c Hm Hnd Hq.
  - destruct t as [|m es]; [done|]. injection Hm as <-.
    destruct q as [|y q]; [done|]. simpl in *.
    destruct (decide (x = y)) as [->|Hne].
    + rewrite lookup_insert_eq.
      destruct q as [|z q]; [done|]. simpl.
      destruct (es !! y) as [[|dm des]|]; try done.
      by destruct (Hnd dm des).
    + by rewrite lookup_insert_ne.
  - destruct t as [|m es]; [done|]. simpl in Hm.
    destruct (es !! a) as [n|] eqn:Ea; [|done].
    destruct (tree.modify_dir d _ n) as [n'|] eqn:En; [|done].
    injection Hm as <-. destruct q as [|y q]; [done|]. simpl.
    destruct (decide (a = y)) as [->|Hne].
    + rewrite lookup_insert_eq, Ea. apply (IH _ _ _ _ _ En).
      * intros dm des. specialize (Hnd dm des). simpl in Hnd.
        by rewrite Ea in Hnd.
      * intros ->. done.
    + by rewrite lookup_insert_ne.
Qed.

Lemma same_files_same_bytes (r1 r2 : result errno node) :
  (∀ perm c, r1 = Ok (File perm c) ↔ r2 = Ok (File perm c)) →
  match r1 with Ok (File _ c) => Some c | _ => None end
  = match r2 with Ok (File _ c) => Some c | _ => @None (list byte) end.
Proof.
  intros H. destruct r1 as [[p1 c1|]|]; destruct r2 as [[p2 c2|]|]; try done.
  - injection (proj1 (H p1 c1) eq_refl) as _ ->. done.
  - by pose proof (proj1 (H p1 c1) eq_refl).
  - by pose proof (proj1 (H p1 c1) eq_refl).
  - by pose proof (proj2 (H p2 c2) eq_refl).
  - by pose proof (proj2 (H p2 c2) eq_refl).
Qed.

Section StoreLayout.

Variable gzip_encode : Z → list byte → list byte.
Variable gzip_decode : list byte → result error (list byte * gz_end).
Variable sha256_Sum : list byte → list byte.

Hypothesis gzip_decode_encode :
  ∀ b, gzip_decode (gzip_encode gzip_BestCompression b) = Ok (b, GzOK).

(** Whatever [Put] returns, a regular file anywhere but at the final path
    of its object is afterwards what it was. *)
Lemma Put_other_paths (s : ContentStore) (meta : MetaObject) (r : Reader)
    (fs : FS) (p q : list string) (perm : Z) (c : list byte) :
  resolve (object_path s meta) = Ok p → q ≠ p →
  tree.find q (root (snd (Put gzip_encode sha256_Sum s meta r fs)))
  = Ok (File perm c)
  ↔ tree.find q (root fs) = Ok (File perm c).
Proof.
  destruct (object_paths s meta) as (D & x & HD & Hp & Ht).
  rewrite Hp. intros [= <-] Hq. destruct fs as [t0 u w].
  rewrite (Put_eq _ _ _ _ _ _ _ _ _ _ HD Hp Ht). cbv zeta. cbn [root].
  destruct (tree.mkdir_all _ D t0) as [t1|] eqn:Em; [|done].
  rewrite <- (mkdir_all_files _ _ _ _ q perm c Em).
  destruct (mkdir_all_find _ _ _ _ Em) as (m & es & Hf & _).
  assert (∀ F pf cf, F = File pf cf →
            (∀ dm des, tree.find (D ++ [x +:+ ".gz"]) t1 ≠ Ok (Dir dm des)) →
            tree.find q (tree.link D (x +:+ ".gz") F t1) = Ok (File perm c)
            ↔ tree.find q t1 = Ok (File perm c)) as Hlink.
  { intros F pf cf -> Hnd. unfold tree.link.
    destruct (tree.modify_dir D _ t1) as [t2|] eqn:E2; [|done].
    by apply (set_entry_files _ _ _ _ _ _ _ _ _ E2). }
  repeat (match goal with
          | |- context [match ?x with _ => _ end] => destruct x eqn:?
          | |- context [if ?x then _ else _] => destruct x eqn:?
          end; cbn [snd root]; try done);
    by eapply Hlink.
Qed.

Lemma Put_other_objects_aux (s : ContentStore) (meta : MetaObject) (r : Reader)
    (fs : FS) (s' : ContentStore) (meta' : MetaObject) :
  resolve (object_path s' meta') ≠ resolve (object_path s meta) →
  object_bytes s' meta' (snd (Put gzip_encode sha256_Sum s meta r fs))
  = object_bytes s' meta' fs.
Proof.
  destruct (object_paths s meta) as (D & x & _ & Hp & _).
  intros Hne. unfold object_bytes.
  destruct (resolve (object_path s' meta')) as [q|] eqn:Hq; [|done].
  assert (q ≠ D ++ [x +:+ ".gz"]) as Hq' by (intros ->; by rewrite Hp in Hne).
  apply same_files_same_bytes. intros perm c.
  by apply (Put_other_paths s meta r fs _ q perm c Hp Hq').
Qed.

(** X16: whatever [Put] returns, every object with another final path, of
    this store or of another one on the same disk, keeps its bytes. *)
Theorem Put_other_objects (s : ContentStore) (meta : MetaObject) (r : Reader)
    (fs : FS) (s' : ContentStore) (meta' : MetaObject) :
  resolve (object_path s' meta') ≠ resolve (object_path s meta) →
  object_bytes s' meta' (snd (Put gzip_encode sha256_Sum s meta r fs))
  = object_bytes s' meta' fs.
Proof. apply Put_other_objects_aux. Qed.

Lemma Put_other_identifiers_aux (s : ContentStore) (meta : MetaObject)
    (r : Reader) (fs : FS) (meta' : MetaObject) :
  Oid meta ≠ "" →
  plain (Oid meta') = true → Oid meta' ≠ "" →
  Oid meta' ≠ Oid meta →
  object_bytes s meta' (snd (Put gzip_encode sha256_Sum s meta r fs))
  = object_bytes s meta' fs.
Proof.
  intros N P' N' Hne.
  destruct (Put gzip_encode sha256_Sum s meta r fs) as [[e|] fs'] eqn:HP.
  - cbn [snd]. unfold object_bytes.
    destruct (resolve (object_path s meta')) as [q|] eqn:Hq; [|done].
    destruct (Put_error_state _ _ _ _ _ _ _ _ HP) as [->| ->]; [done|].
    destruct (object_paths s meta) as (D & x & HD & _ & _).
    rewrite (os_MkdirAll_eq _ _ _ _ HD).
    destruct (tree.mkdir_all _ D (root fs)) as [t1|] eqn:Em; [|done].
    cbn [snd root].
    apply same_files_same_bytes. intros perm c.
    by apply (mkdir_all_files _ _ _ _ q perm c Em).
  - destruct (Put_ok_object _ _ _ _ _ _ _ HP) as (_ & _ & Hh & _).
    assert (plain (Oid meta) = true) as P
      by (rewrite Hh; apply hex_EncodeToString_shape).
    rewrite <- HP. apply Put_other_objects_aux.
    by apply object_paths_differ.
Qed.

(** X17: a [Put] for one hexadecimal identifier leaves the object of every
    other hexadecimal identifier of the store as it was, whatever it
    returns. *)
Theorem Put_other_identifiers (s : ContentStore) (meta : MetaObject)
    (r : Reader) (fs : FS) (meta' : MetaObject) :
  Oid meta ≠ "" →
  plain (Oid meta') = true → Oid meta' ≠ "" →
  Oid meta' ≠ Oid meta →
  object_bytes s meta' (snd (Put gzip_encode sha256_Sum s meta r fs))
  = object_bytes s meta' fs.
Proof. apply Put_other_identifiers_aux. Qed.

Lemma store_ok_Put (s : ContentStore) (meta : MetaObject)
    (r : Reader) (fs : FS) :
  Oid meta ≠ "" →
  store_ok gzip_encode sha256_Sum s fs →
  store_ok gzip_encode sha256_Sum s
    (snd (Put gzip_encode sha256_Sum s meta r fs)).
Proof.
  intros N Hok oid size c P N' Hobj.
  destruct (decide (oid = Oid meta)) as [->|Hne].
  - change (object_bytes s (mkMeta (Oid meta) size)) with (object_bytes s meta)
      in Hobj.
    destruct (Put gzip_encode sha256_Sum s meta r fs) as [[e|] fs'] eqn:HP;
      cbn [snd] in Hobj.
    + rewrite (proj1 (Put_error_frame _ _ _ _ _ _ _ _ HP)) in Hobj.
      by apply (Hok (Oid meta) size c).
    + destruct (Put_ok_object _ _ _ _ _ _ _ HP) as (_ & _ & Hh & Hb).
      rewrite Hb in Hobj. injection Hobj as <-. eauto.
  - rewrite Put_other_identifiers_aux in Hobj by done.
    by apply (Hok oid size c).
Qed.

(** X18: [Put] keeps the store sound.  If every file at the final path of
    a hexadecimal identifier is the compressed form of content with that
    hash, the same is true after any [Put], whatever it returns: an object
    is published only after its hash has been checked, and the others are
    left alone. *)
Theorem Put_keeps_store_ok (s : ContentStore) (meta : MetaObject)
    (r : Reader) (fs : FS) :
  Oid meta ≠ "" →
  store_ok gzip_encode sha256_Sum s fs →
  store_ok gzip_encode sha256_Sum s
    (snd (Put gzip_encode sha256_Sum s meta r fs)).
Proof. apply store_ok_Put. Qed.

(** X24: in a sound store, [Get] from offset 0 of any object that is there
    returns, without error, a stream whose content hashes to the
    identifier asked for, although [Get] itself verifies nothing. *)
Theorem Get_verified (s : ContentStore) (meta : MetaObject) (fs : FS)
    (c : list byte) :
  store_ok gzip_encode sha256_Sum s fs →
  plain (Oid meta) = true → Oid meta ≠ "" →
  object_bytes s meta fs = Some c →
  ∃ h b, Get gzip_decode s meta 0 fs = ((Some h, None), fs)
         ∧ read_all h = Ok (b, None)
         ∧ hex_EncodeToString (sha256_Sum b) = Oid meta.
Proof.
  intros Hok P N Hobj.
  destruct (Hok (Oid meta) (Size meta) c P N) as (b & -> & Hh).
  { by destruct meta. }
  destruct (Get_stored gzip_decode s meta fs _ b GzOK 0 Hobj
              (gzip_decode_encode b)) as (file & _ & HG).
  eexists _, b. split; [exact HG|]. split; [|done]. by apply read_all_spec.
Qed.

(** ** A fresh store *)

(** Below an empty directory every directory can be made, and is empty. *)
Lemma mkdir_all_below_empty (mode : Z) (R q : list string) : ∀ t m,
  tree.find R t = Ok (Dir m ∅) →
  ∃ t' m', tree.mkdir_all mode (R ++ q) t = Ok t'
           ∧ tree.find (R ++ q) t' = Ok (Dir m' ∅).
Proof.
  induction R as [|a R IH]; intros t m Hf; simpl in Hf.
  - injection Hf as ->. simpl. revert m.
    induction q as [|c q IHq]; intros m; [by eauto|]. simpl.
    rewrite lookup_empty. simpl.
    destruct (IHq mode) as (n' & m' & -> & Hn').
    do 2 eexists. split; [done|]. simpl. by rewrite lookup_insert_eq.
  - destruct t as [|m0 es]; [done|].
    destruct (es !! a) as [n|] eqn:Ea; [|done]. simpl. rewrite Ea. simpl.
    destruct (IH _ _ Hf) as (n' & m' & -> & Hn').
    do 2 eexists. split; [done|]. simpl. by rewrite lookup_insert_eq.
Qed.

(** X6: a store made where nothing was takes a valid object and gives it
    back: after [NewContentStore] on a base path that did not exist, with
    a working device, [Put] of any content under its own descriptor
    (the digest not empty, as a SHA-256 digest never is) reports no
    error, and [Get] from offset 0 then returns the content. *)
Theorem fresh_store_roundtrip (base : string) (fs fs1 : FS)
    (s : ContentStore) (b : list byte) :
  NewContentStore base fs = ((Some s, None), fs1) →
  fst (os_Stat base fs) = Err (SyscallError ENOENT) →
  wfault fs = None →
  sha256_Sum b ≠ [] →
  let meta := mkMeta (hex_EncodeToString (sha256_Sum b)) (Z.of_nat (length b)) in
  ∃ fs2 h,
    Put gzip_encode sha256_Sum s meta (mkReader b None) fs1 = (None, fs2)
    ∧ Get gzip_decode s meta 0 fs2 = ((Some h, None), fs2)
    ∧ read_all h = Ok (b, None).
Proof.
  intros HN Hstat Hw Hsum meta.
  (* the base directory is new and empty *)
  unfold NewContentStore, mbind, M_bind, mret, M_ret in HN.
  destruct (resolve base) as [R|] eqn:HR;
    [|by unfold os_MkdirAll, get_fs, mbind, M_bind, mret, M_ret in HN;
         rewrite HR in HN].
  rewrite (os_MkdirAll_eq _ _ _ _ HR) in HN.
  rewrite (os_Stat_eq _ _ _ HR) in Hstat. cbn [fst] in Hstat.
  destruct (tree.mkdir_all _ R (root fs)) as [t1|] eqn:Em; [|done].
  injection HN as <- <-.
  destruct (mkdir_all_find _ _ _ _ Em) as (m & es & Hf & Hor).
  destruct Hor as [[H0 _]|(_ & -> & ->)].
  { rewrite H0 in Hstat. done. }
  assert (R = base_elems (mkStore base)) as HRb.
  { unfold resolve in HR. case_bool_decide; [done|]. by injection HR. }
  (* where the object goes *)
  assert (plain (Oid meta) = true ∧ Oid meta ≠ "") as [P N].
  { unfold meta. cbn [Oid]. split; [apply hex_EncodeToString_shape|].
    intros E. apply (f_equal String.length) in E.
    rewrite (proj1 (hex_EncodeToString_shape _)) in E.
    destruct (sha256_Sum b); [done|]. simpl in E. lia. }
  pose proof (object_elems (mkStore base) meta P N) as Hlay.
  rewrite <- HRb in Hlay.
  destruct (object_paths (mkStore base) meta) as (D & x & HD & Hp & Ht).
  assert (∃ q, D = R ++ q) as [q ->].
  { assert (∃ q z, shard_elems (Oid meta) = q ++ [z]) as (q & z & Hsh).
    { unfold shard_elems. destruct (_ <? _)%nat.
      - by exists [], (Oid meta +:+ ".gz").
      - by eexists [_; _], _. }
    rewrite Hp, Hsh, app_assoc in Hlay. injection Hlay as Hlay.
    exists q. by apply app_inj_tail in Hlay as [-> _]. }
  destruct (mkdir_all_below_empty
              (create_mode (mkFS t1 (umask fs) (wfault fs)) (oct 7 5 0))
              R q t1 _ Hf) as (t2 & m2 & Em2 & Hf2).
  (* the steps before the checks go through *)
  assert (put_io_ok (mkStore base) meta (mkFS t1 (umask fs) (wfault fs)) = true)
    as Hio.
  { unfold put_io_ok. rewrite (os_MkdirAll_eq _ _ _ _ HD). cbn [root umask wfault].
    rewrite Em2.
    rewrite <- (put_entries_same _ _ _ _ Hf2) at 1.
    rewrite (os_OpenFile_excl _ _ _ _ Hf2 _ _ _ _ _ _ Ht), lookup_empty.
    cbn [fst]. by rewrite bool_decide_eq_true_2. }
  (* so the Put succeeds, and the Get finds what it wrote *)
  assert (fst (Put gzip_encode sha256_Sum (mkStore base) meta (mkReader b None)
                 (mkFS t1 (umask fs) (wfault fs))) = None) as HP.
  { apply Put_succeeds; [exact Hio|done|done|].
    intros info. rewrite (os_Stat_eq _ _ _ Hp). cbn [fst root].
    rewrite <- app_assoc, find_app, Hf.
    destruct (q ++ [x +:+ ".gz"]) as [|y l] eqn:El; [by destruct q|].
    simpl. by rewrite lookup_empty. }
  destruct (Put gzip_encode sha256_Sum (mkStore base) meta (mkReader b None)
              (mkFS t1 (umask fs) (wfault fs))) as [res fs2] eqn:EP.
  cbn [fst] in HP. subst res.
  destruct (Put_ok_object _ _ _ _ _ _ _ EP) as (_ & _ & _ & Hobj).
  cbn [r_data] in Hobj.
  destruct (Get_stored gzip_decode (mkStore base) meta fs2 _ b GzOK 0 Hobj
              (gzip_decode_encode b)) as (file & _ & HG).
  exists fs2. eexists. split; [done|]. split; [exact HG|].
  by apply read_all_spec.
Qed.

End StoreLayout.

(** X5: making a store changes no file: every object of every store on
    the disk has the bytes it had, whether [NewContentStore] succeeds or
    not. *)
Theorem NewContentStore_keeps_objects (base : string) (fs : FS)
    (s : ContentStore) (meta : MetaObject) :
  object_bytes s meta (snd (NewContentStore base fs)) = object_bytes s meta fs.
Proof.
  unfold NewContentStore, mbind, M_bind, mret, M_ret.
  destruct (os_MkdirAll base (oct 7 5 0) fs) as [err fs1] eqn:E.
  assert (object_bytes s meta fs1 = object_bytes s meta fs) as <-;
    [|by destruct err].
  unfold os_MkdirAll, get_fs, set_root, mbind, M_bind, mret, M_ret in E.
  destruct (resolve base) as [p|]; [|by injection E as _ <-].
  destruct (tree.mkdir_all _ p (root fs)) as [t|] eqn:Em;
    [|by injection E as _ <-].
  injection E as _ <-. unfold object_bytes.
  destruct (resolve (object_path s meta)) as [q|]; [|done].
  apply same_files_same_bytes. intros perm c.
  by apply (mkdir_all_files _ _ _ _ q perm c Em).
Qed.

(** ** The further properties on concrete disks *)

Lemma store_ok_empty_disk :
  store_ok demo.encode demo.digest demo.store demo.empty_disk.
Proof.
  intros oid size c _ _. unfold object_bytes.
  destruct (resolve _) as [[|y p]|]; [done| |done].
  simpl. by rewrite lookup_empty.
Qed.

Lemma Put_again_witness :
  Put demo.encode demo.digest demo.store (demo.describe demo.hello)
    (mkReader demo.hello None) demo.stored_disk
  = (None, demo.stored_disk).
Proof.
  apply (Put_again demo.encode demo.digest demo.store
           (demo.describe demo.hello) (mkReader demo.hello None)
           demo.empty_disk).
  vm_compute. reflexivity.
Defined.

Lemma Put_ok_Exists_witness :
  fst (Exists demo.store (demo.describe demo.hello) demo.stored_disk) = true.
Proof.
  apply (Put_ok_Exists demo.encode demo.digest demo.store
           (demo.describe demo.hello) (mkReader demo.hello None)
           demo.empty_disk).
  vm_compute. reflexivity.
Defined.


Lemma Put_ok_Oid_hex_witness :
  String.length (Oid (demo.describe demo.hello)) = 8%nat
  ∧ plain (Oid (demo.describe demo.hello)) = true.
Proof.
  apply (Put_ok_Oid_hex demo.encode demo.digest demo.store
           (demo.describe demo.hello) (mkReader demo.hello None)
           demo.empty_disk demo.stored_disk).
  vm_compute. reflexivity.
Defined.


Lemma Put_valid_succeeds_witness :
  fst (Put demo.encode demo.digest demo.store (demo.describe demo.hello)
         (mkReader demo.hello None) demo.stored_disk) = None.
Proof.
  apply (Put_valid_succeeds demo.encode demo.digest demo.store
           (demo.describe demo.hello) demo.hello demo.stored_disk).
  - vm_compute. reflexivity.
  - reflexivity.
  - reflexivity.
  - intros info. vm_compute. intros [= <-]. reflexivity.
Defined.

Lemma Get_absent_witness :
  Get demo.decode demo.store (demo.describe demo.hello) 3 demo.empty_disk
  = ((None, Some (SyscallError ENOENT)), demo.empty_disk).
Proof.
  apply (Get_absent demo.decode demo.store (demo.describe demo.hello) 3
           demo.empty_disk).
  vm_compute. reflexivity.
Defined.

Lemma Get_not_gzip_witness :
  Get damaged.decode demo.store (mkMeta "cd" 5) 0 damaged.disk
  = ((None, Some gzip_ErrHeader), damaged.disk).
Proof.
  apply (Get_not_gzip damaged.decode demo.store (mkMeta "cd" 5) 0
           damaged.disk (demo.bytes "hello")).
  - vm_compute. reflexivity.
  - reflexivity.
Defined.

Lemma Get_damaged_witness :
  ∃ h, Get damaged.decode demo.store (mkMeta "ab" 5) 2 damaged.disk
       = ((Some h, None), damaged.disk)
       ∧ read_all h = Ok (demo.bytes "llo", Some flate_CorruptInputError).
Proof.
  refine (proj1 (Get_damaged damaged.decode demo.store (mkMeta "ab" 5) 2
                   damaged.disk (x1f :: x8b :: demo.bytes "hello")
                   (demo.bytes "hello") (GzInflateErr flate_CorruptInputError)
                   _ _ _) _).
  - vm_compute. reflexivity.
  - reflexivity.
  - discriminate.
  - vm_compute. split; discriminate.
Defined.


Lemma object_path_inj_witness :
  resolve (object_path demo.store (mkMeta "68656c6c" 11))
  ≠ resolve (object_path demo.store (mkMeta "68656c6d" 11)).
Proof.
  apply (object_path_inj demo.store (mkMeta "68656c6c" 11)
           (mkMeta "68656c6d" 11)); reflexivity || discriminate.
Defined.

Lemma Put_other_objects_witness :
  object_bytes (mkStore "data/") (mkMeta "ab" 5)
    (snd (Put demo.encode demo.digest demo.store
            (demo.describe demo.hello) (mkReader demo.hello None)
            damaged.disk))
  = Some (x1f :: x8b :: demo.bytes "hello").
Proof.
  refine (eq_trans
            (Put_other_objects demo.encode demo.digest demo.store
               (demo.describe demo.hello) (mkReader demo.hello None)
               damaged.disk (mkStore "data/") (mkMeta "ab" 5) _) _).
  - vm_compute. discriminate.
  - vm_compute. reflexivity.
Defined.

Lemma Put_other_identifiers_witness :
  object_bytes demo.store (mkMeta "ef" 5)
    (snd (Put demo.encode demo.digest demo.store
            (demo.describe demo.hello) (mkReader demo.hello None)
            damaged.disk))
  = Some (x1f :: x8b :: demo.bytes "hello" ++ [x00]).
Proof.
  refine (eq_trans
            (Put_other_identifiers demo.encode demo.digest demo.store
               (demo.describe demo.hello) (mkReader demo.hello None)
               damaged.disk (mkMeta "ef" 5) _ _ _ _) _).
  - vm_compute. discriminate.
  - reflexivity.
  - discriminate.
  - vm_compute. discriminate.
  - vm_compute. reflexivity.
Defined.

Lemma store_ok_stored_disk :
  store_ok demo.encode demo.digest demo.store demo.stored_disk.
Proof.
  apply (store_ok_Put demo.encode demo.digest demo.store
           (demo.describe demo.hello) (mkReader demo.hello None)
           demo.empty_disk).
  - vm_compute. discriminate.
  - exact store_ok_empty_disk.
Qed.

Lemma Put_keeps_store_ok_witness :
  store_ok demo.encode demo.digest demo.store demo.stored_disk
  ∧ store_ok demo.encode demo.digest demo.store
      (snd (Put demo.encode demo.digest demo.store
              (demo.describe (demo.bytes "other data"))
              (mkReader (demo.bytes "other data") None) demo.stored_disk)).
Proof.
  split; [exact store_ok_stored_disk|].
  apply (Put_keeps_store_ok demo.encode demo.digest demo.store
           (demo.describe (demo.bytes "other data"))
           (mkReader (demo.bytes "other data") None) demo.stored_disk).
  - vm_compute. discriminate.
  - exact store_ok_stored_disk.
Defined.

Lemma Get_verified_witness :
  ∃ h b, Get demo.decode demo.store (demo.describe demo.hello) 0
           demo.stored_disk
         = ((Some h, None), demo.stored_disk)
         ∧ read_all h = Ok (b, None)
         ∧ hex_EncodeToString (demo.digest b) = Oid (demo.describe demo.hello).
Proof.
  apply (Get_verified demo.encode demo.decode demo.digest demo_decode_encode
           demo.store (demo.describe demo.hello) demo.stored_disk
           (x1f :: x8b :: demo.hello)).
  - exact store_ok_stored_disk.
  - reflexivity.
  - vm_compute. discriminate.
  - vm_compute. reflexivity.
Defined.

Lemma fresh_store_roundtrip_witness :
  ∃ fs2 h,
    Put demo.encode demo.digest demo.store (demo.describe demo.hello)
      (mkReader demo.hello None)
      (snd (NewContentStore "data" demo.empty_disk))
    = (None, fs2)
    ∧ Get demo.decode demo.store (demo.describe demo.hello) 0 fs2
      = ((Some h, None), fs2)
    ∧ read_all h = Ok (demo.hello, None).
Proof.
  apply (fresh_store_roundtrip demo.encode demo.decode demo.digest
           demo_decode_encode "data" demo.empty_disk
           (snd (NewContentStore "data" demo.empty_disk))
           demo.store demo.hello).
  - vm_compute. reflexivity.
  - vm_compute. reflexivity.
  - reflexivity.
  - vm_compute. discriminate.
Defined.


Lemma Put_errors_classified_witness :
  (∃ n, errHashMismatch = SyscallError n)
  ∨ (errHashMismatch = errSizeMismatch
     ∧ Z.of_nat (length demo.hello) ≠ Size (mkMeta "00000000" 11))
  ∨ (errHashMismatch = errHashMismatch
     ∧ Z.of_nat (length demo.hello) = Size (mkMeta "00000000" 11)
     ∧ hex_EncodeToString (demo.digest demo.hello) ≠ Oid (mkMeta "00000000" 11)).
Proof.
  apply (Put_errors_classified demo.encode demo.digest demo.store
           (mkMeta "00000000" 11) demo.hello demo.empty_disk
           (snd (Put demo.encode demo.digest demo.store (mkMeta "00000000" 11)
                   (mkReader demo.hello None) demo.empty_disk))).
  vm_compute. reflexivity.
Defined.
